(** * TinyUSB OSAL for ChibiOS: [src/osal/osal_chibios.h]

    A shallow embedding of the ChibiOS adapter of the TinyUSB operating-system
    abstraction layer: counting semaphores, mutexes built on the same
    primitive, and the object queue built on a ChibiOS objects FIFO (a guarded
    memory pool plus a mailbox).

    Every OSAL function is a state transformer over an explicit kernel state.
    A call either returns, stays suspended, or trips one of the kernel's
    checks.  Storage that the source uses without having written it (an
    uninitialised local, a member of the returned object that no statement
    assigns) holds an indeterminate value; each such value is an explicit
    argument of the embedded function, its name ending in [0]. *)

From Stdlib Require Import ZArith Lia List Bool.
From stdpp Require Import base option list gmap.

Local Open Scope Z_scope.

(** ** Machine integers and memory *)

Definition to_uint16 (x : Z) : Z := x mod 2 ^ 16.
Definition to_uint32 (x : Z) : Z := x mod 2 ^ 32.

(** C's conversion of a scalar to [bool]: zero is [false], the rest [true]. *)
Definition to_bool (x : Z) : bool := negb (x =? 0).

(** The target is a 32-bit little-endian machine: an object pointer is stored
    in four bytes, least significant first.  Memory is byte addressed; a byte
    never written reads as 0. *)
Definition sizeof_ptr : Z := 4.

Definition ptr_bytes (p : Z) : list Z :=
  [p mod 256; (p / 256) mod 256; (p / 65536) mod 256; (p / 16777216) mod 256].

Definition bytes_ptr (l : list Z) : Z :=
  foldr (fun b acc => b + 256 * acc) 0 l.

Definition load (m : gmap Z Z) (a : Z) : Z := default 0 (m !! a).

Fixpoint read_bytes (m : gmap Z Z) (a : Z) (n : nat) : list Z :=
  match n with
  | O => []
  | S n' => load m a :: read_bytes m (a + 1) n'
  end.

Fixpoint write_bytes (m : gmap Z Z) (a : Z) (l : list Z) : gmap Z Z :=
  match l with
  | [] => m
  | b :: l' => write_bytes (<[a := b]> m) (a + 1) l'
  end.

Definition load_ptr (m : gmap Z Z) (a : Z) : Z :=
  bytes_ptr (read_bytes m a (Z.to_nat sizeof_ptr)).

Definition store_ptr (m : gmap Z Z) (a p : Z) : gmap Z Z :=
  write_bytes m a (ptr_bytes p).

(** ** The kernel

    [ch.h] is not among the sources.  The kernel is the external
    collaborator of sections 5 and 6 of the specification: primitive
    initialisation, signal and wait with a timeout in ticks, a
    millisecond-to-tick conversion, a lock bracket, and the pool-backed FIFO
    of section 4.3, whose slots cycle free, taken by the producer, enqueued,
    taken by the consumer, free.  Constants, and the order in which the pool
    hands out its objects, are those of ChibiOS.

    One call runs at a time.  For a semaphore wait the doings of the rest of
    the system during the wait are an argument of the call ([wake]).  For the
    FIFO they are not modelled inside a call: a call that has to wait with
    the infinite timeout [Blocks], and what other contexts do meanwhile shows
    as the state in which the call is made again. *)

(** Modelled from the spec: the result codes of [ch.h]; a wait succeeds
    ([MSG_OK]), times out, or is released by a reset. *)
Definition MSG_OK : Z := 0.
Definition MSG_TIMEOUT : Z := -1.
Definition MSG_RESET : Z := -2.

Definition NULL : Z := 0.

(** Modelled from the spec: the type [sysinterval_t] of [ch.h], a timeout in
    native ticks, 32 bits wide (the kernel's default interval size), with
    its two reserved values. *)
Definition to_sysinterval (x : Z) : Z := x mod 2 ^ 32.
Definition TIME_IMMEDIATE : Z := 0.
Definition TIME_INFINITE : Z := to_sysinterval (-1).

(** Modelled from the spec: the reserved "wait forever" sentinel of the OSAL
    interface ([osal.h] is not among the sources); TinyUSB defines it as
    [UINT32_MAX]. *)
Definition OSAL_TIMEOUT_WAIT_FOREVER : Z := 2 ^ 32 - 1.

(** Modelled from the spec: the type [objects_fifo_t] of [ch.h], the
    pool/FIFO control block: a guarded pool of free objects and a mailbox of
    posted object pointers. *)
Record objects_fifo_t := mk_fifo {
  pool_objsize : Z;       (* size of one pool object, in bytes *)
  pool_free : list Z;     (* free objects, the next one to hand out first *)
  mbx_buffer : Z;         (* the message buffer the mailbox was given *)
  mbx_size : Z;           (* capacity of the mailbox, in messages *)
  mbx_msgs : list Z;      (* posted and not yet fetched, oldest first *)
  mbx_reset : bool        (* the mailbox is in reset state *)
}.

(** The state the calls act on.  Kernel objects live at addresses: a handle
    holds the address of its descriptor's embedded object, and two handles
    with the same address share the object. *)
Record kernel := mk_kernel {
  k_lock : bool;                    (* inside a chSysLock bracket *)
  k_sems : gmap Z Z;                (* semaphore_t at an address: its counter *)
  k_fifos : gmap Z objects_fifo_t;  (* objects_fifo_t at an address *)
  k_mem : gmap Z Z                  (* byte memory *)
}.

Definition set_lock (b : bool) (k : kernel) : kernel :=
  mk_kernel b (k_sems k) (k_fifos k) (k_mem k).
Definition set_sem (sp n : Z) (k : kernel) : kernel :=
  mk_kernel (k_lock k) (<[sp := n]> (k_sems k)) (k_fifos k) (k_mem k).
Definition set_fifo (ofp : Z) (f : objects_fifo_t) (k : kernel) : kernel :=
  mk_kernel (k_lock k) (k_sems k) (<[ofp := f]> (k_fifos k)) (k_mem k).
Definition set_mem (m : gmap Z Z) (k : kernel) : kernel :=
  mk_kernel (k_lock k) (k_sems k) (k_fifos k) m.

Definition set_free (l : list Z) (f : objects_fifo_t) : objects_fifo_t :=
  mk_fifo (pool_objsize f) l (mbx_buffer f) (mbx_size f) (mbx_msgs f) (mbx_reset f).
Definition set_msgs (l : list Z) (f : objects_fifo_t) : objects_fifo_t :=
  mk_fifo (pool_objsize f) (pool_free f) (mbx_buffer f) (mbx_size f) l (mbx_reset f).

(** ** Calls as state transformers *)

Inductive outcome (A : Type) : Type :=
| Ret (r : A) (k : kernel)  (* the call returns [r] and leaves the kernel in [k] *)
| Blocks                    (* the caller stays suspended: nothing wakes it *)
| Fault.                    (* a kernel check trips: wrong lock state, or a
                               reference that designates no initialised object *)
Arguments Ret {A} r k.
Arguments Blocks {A}.
Arguments Fault {A}.

Definition call (A : Type) : Type := kernel -> outcome A.

Definition ret {A : Type} (r : A) : call A := fun k => Ret r k.

Definition bind {A B : Type} (c : call A) (f : A -> call B) : call B :=
  fun k =>
    match c k with
    | Ret r k' => f r k'
    | Blocks => Blocks
    | Fault => Fault
    end.

Notation "'do' x <- c ; f" := (bind c (fun x => f))
  (at level 10, x name, c at level 100, f at level 200).
Notation "'do_' c ; f" := (bind c (fun _ => f))
  (at level 10, c at level 100, f at level 200).

(** What the rest of the system does to a semaphore while the caller sleeps
    on it. *)
Inductive wake : Type :=
| Signalled           (* another context signals the semaphore *)
| ResetTo (n : Z)     (* another thread resets it to [n] *)
| Quiet.              (* nothing happens before the timeout *)

(** Modelled from the spec: the context rule of section 5.  Thread-level
    API is called outside a lock bracket, the non-blocking I-class API
    inside one. *)
Definition thread_class : call unit :=
  fun k => if k_lock k then Fault else Ret tt k.
Definition i_class : call unit :=
  fun k => if k_lock k then Ret tt k else Fault.

(** Modelled from the spec: the lock bracket of [ch.h], in its thread and
    interrupt-handler spellings. *)
Definition chSysLock : call unit :=
  do_ thread_class; fun k => Ret tt (set_lock true k).
Definition chSysUnlock : call unit :=
  do_ i_class; fun k => Ret tt (set_lock false k).
Definition chSysLockFromISR : call unit := chSysLock.
Definition chSysUnlockFromISR : call unit := chSysUnlock.

(** The object a reference designates, if it was ever initialised. *)
Definition the_sem (sp : Z) : call Z :=
  fun k => match k_sems k !! sp with Some c => Ret c k | None => Fault end.
Definition the_fifo (ofp : Z) : call objects_fifo_t :=
  fun k => match k_fifos k !! ofp with Some f => Ret f k | None => Fault end.

(** Modelled from the spec: the counting primitive of section 4.1
    ([chSemObjectInit], [chSemSignal], [chSemSignalI] and [chSemReset] of
    [ch.h]): initialisation sets the count, a signal adds one, a reset sets
    the count anew. *)
Definition chSemObjectInit (sp n : Z) : call unit :=
  fun k => Ret tt (set_sem sp n k).

Definition chSemSignal (sp : Z) : call unit :=
  do_ thread_class; do c <- the_sem sp; fun k => Ret tt (set_sem sp (c + 1) k).

Definition chSemSignalI (sp : Z) : call unit :=
  do_ i_class; do c <- the_sem sp; fun k => Ret tt (set_sem sp (c + 1) k).

Definition chSemReset (sp n : Z) : call unit :=
  do_ thread_class; do_ the_sem sp; fun k => Ret tt (set_sem sp n k).

(** Modelled from the spec: [chSemWaitTimeout] of [ch.h], the wait of
    section 4.1.  A positive count is taken at once.  Otherwise an immediate
    timeout fails at once, and a sleeping caller is woken by a signal (the
    count it took and the count signalled cancel), by a reset, or by its
    timeout; with the infinite timeout and no event it sleeps on. *)
Definition chSemWaitTimeout (sp ticks : Z) (ev : wake) : call Z :=
  do_ thread_class; do c <- the_sem sp;
  fun k =>
    if 0 <? c then Ret MSG_OK (set_sem sp (c - 1) k)
    else if ticks =? TIME_IMMEDIATE then Ret MSG_TIMEOUT k
    else match ev with
         | Signalled => Ret MSG_OK k
         | ResetTo n => Ret MSG_RESET (set_sem sp n k)
         | Quiet => if ticks =? TIME_INFINITE then Blocks else Ret MSG_TIMEOUT k
         end.

(** Modelled from the spec: the loading of the pool behind
    [chFifoObjectInit].  The [n] objects of [sz] bytes from [p] on are
    pushed on the free list one after the other, so the last is handed out
    first. *)
Fixpoint chPoolLoadArray (free : list Z) (p sz : Z) (n : nat) : list Z :=
  match n with
  | O => free
  | S n' => chPoolLoadArray (p :: free) (p + sz) sz n'
  end.

(** Modelled from the spec: [chFifoObjectInit] of [ch.h], "binds the object
    buffer and message-slot buffer into a pool-backed FIFO with depth slots
    of object_size bytes each". *)
Definition chFifoObjectInit (ofp objsize objn objbuf msgbuf : Z) : call unit :=
  fun k =>
    Ret tt (set_fifo ofp
              (mk_fifo objsize (chPoolLoadArray [] objbuf objsize (Z.to_nat objn))
                       msgbuf objn [] false) k).

(** What a wait that cannot be served at once does with its timeout: it
    gives up with [r], at once or when the timeout has passed, or with the
    infinite timeout it stays blocked. *)
Definition expire {A : Type} (timeout : Z) (r : A) : call A :=
  fun k =>
    if timeout =? TIME_IMMEDIATE then Ret r k
    else if timeout =? TIME_INFINITE then Blocks
    else Ret r k.

(** Modelled from the spec: [chFifoTakeObjectTimeout] of [ch.h], "acquire a
    free slot" with a timeout.  The source passes three arguments (the fifo,
    [data], the timeout); the allocation has no use for the second. *)
Definition chFifoTakeObjectTimeout (ofp data timeout : Z) : call Z :=
  do_ thread_class; do f <- the_fifo ofp;
  match pool_free f with
  | p :: rest => fun k => Ret p (set_fifo ofp (set_free rest f) k)
  | [] => expire timeout NULL
  end.

(** Modelled from the spec: [chFifoTakeObjectI] of [ch.h], the non-blocking
    allocation: a free slot, or [NULL] when there is none. *)
Definition chFifoTakeObjectI (ofp : Z) : call Z :=
  do_ i_class; do f <- the_fifo ofp;
  match pool_free f with
  | p :: rest => fun k => Ret p (set_fifo ofp (set_free rest f) k)
  | [] => ret NULL
  end.

(** Modelled from the spec: [chFifoReturnObject] of [ch.h], "returns the
    consumed slot to the free pool". *)
Definition chFifoReturnObject (ofp objp : Z) : call unit :=
  do_ thread_class; do f <- the_fifo ofp;
  fun k => Ret tt (set_fifo ofp (set_free (objp :: pool_free f) f) k).

Definition mbx_full (f : objects_fifo_t) : bool :=
  mbx_size f <=? Z.of_nat (length (mbx_msgs f)).

(** Modelled from the spec: [chFifoSendObject] of [ch.h], "enqueue with
    infinite timeout".  The source passes a timeout and tests the result:
    the post to the mailbox with that timeout. *)
Definition chFifoSendObject (ofp objp timeout : Z) : call Z :=
  do_ thread_class; do f <- the_fifo ofp;
  if mbx_reset f then ret MSG_RESET
  else if mbx_full f then expire timeout MSG_TIMEOUT
  else fun k => Ret MSG_OK (set_fifo ofp (set_msgs (mbx_msgs f ++ [objp]) f) k).

(** Modelled from the spec: [chFifoSendObjectI] of [ch.h], the non-blocking
    post; one that finds the mailbox full or reset is dropped. *)
Definition chFifoSendObjectI (ofp objp : Z) : call unit :=
  do_ i_class; do f <- the_fifo ofp;
  if mbx_reset f || mbx_full f then ret tt
  else fun k => Ret tt (set_fifo ofp (set_msgs (mbx_msgs f ++ [objp]) f) k).

(** Modelled from the spec: [chFifoReceiveObjectTimeout] of [ch.h], "blocks
    until a slot is enqueued".  The oldest message is fetched and stored
    through [objpp], the caller's pointer to where it wants the object
    reference. *)
Definition chFifoReceiveObjectTimeout (ofp objpp timeout : Z) : call Z :=
  do_ thread_class; do f <- the_fifo ofp;
  if mbx_reset f then ret MSG_RESET
  else match mbx_msgs f with
       | m :: rest =>
           fun k => Ret MSG_OK (set_mem (store_ptr (k_mem k) objpp m)
                                  (set_fifo ofp (set_msgs rest f) k))
       | [] => expire timeout MSG_TIMEOUT
       end.

(** Modelled from the spec: [chMBGetFreeCountI] of [ch.h], the number of
    free message slots of the fifo's mailbox: its capacity less the messages
    it holds. *)
Definition chMBGetFreeCountI (ofp : Z) : call Z :=
  do_ i_class; do f <- the_fifo ofp;
  ret (mbx_size f - Z.of_nat (length (mbx_msgs f))).

(** The C library's [memcpy], and the read of the pointer stored at address
    [pp] (the expression [*objpp]). *)
Definition memcpy (dst src n : Z) : call unit :=
  fun k =>
    Ret tt (set_mem (write_bytes (k_mem k) dst (read_bytes (k_mem k) src (Z.to_nat n))) k).

Definition deref (pp : Z) : call Z := fun k => Ret (load_ptr (k_mem k) pp) k.

(** ** The adapter: [osal_chibios.h] *)

Section OSAL.

(** The kernel's tick frequency, a setting of its configuration header. *)
Variable CH_CFG_ST_FREQUENCY : Z.

(** Modelled from the spec: [TIME_MS2I] of [ch.h], the millisecond-to-tick
    conversion, rounding up, as a [sysinterval_t]. *)
Definition TIME_MS2I (msec : Z) : Z :=
  to_sysinterval ((msec * CH_CFG_ST_FREQUENCY + 999) / 1000).

(** Modelled from the spec: [chThdSleepMilliseconds] of [ch.h]; the caller
    sleeps and resumes, and no kernel object changes. *)
Definition chThdSleepMilliseconds (msec : Z) : call unit := thread_class.

(** *** Task API *)

Definition osal_task_delay (msec : Z) : call unit :=
  chThdSleepMilliseconds msec.

(** *** Semaphore API

    A descriptor embeds its [semaphore_t]; [def_sem] is the address of that
    member, the value of [&semdef->sem]. *)

Record osal_semaphore_def_t := mk_semdef {
  def_size : Z;
  def_sem : Z
}.

Record osal_semaphore_t := mk_sem {
  hdl_size : Z;
  hdl_sem : Z
}.

Definition osal_semaphore_create (semdef : osal_semaphore_def_t) : call osal_semaphore_t :=
  let s := mk_sem (def_size semdef) (def_sem semdef) in
  do_ chSemObjectInit (hdl_sem s) (hdl_size s);
  ret s.

Definition osal_semaphore_post (sem_hdl : osal_semaphore_t) (in_isr : bool) : call bool :=
  if negb in_isr then
    do_ chSemSignal (hdl_sem sem_hdl);
    ret false
  else
    do_ chSysLockFromISR;
    do_ chSemSignalI (hdl_sem sem_hdl);
    do_ chSysUnlockFromISR;
    ret false.

Definition osal_semaphore_wait (sem_hdl : osal_semaphore_t) (msec : Z) (ev : wake) : call bool :=
  let ticks :=
    to_sysinterval
      (if msec =? OSAL_TIMEOUT_WAIT_FOREVER then TIME_INFINITE else TIME_MS2I msec) in
  do msg <- chSemWaitTimeout (hdl_sem sem_hdl) ticks ev;
  ret (to_bool msg).

Definition osal_semaphore_reset (sem_hdl : osal_semaphore_t) : call unit :=
  chSemReset (hdl_sem sem_hdl) (hdl_size sem_hdl).

(** *** Mutex API *)

Definition osal_mutex_def_t := osal_semaphore_def_t.
Definition osal_mutex_t := osal_semaphore_t.

(** The source declares the local [m], assigns [m.size], then assigns
    [s.sem], initialises the semaphore designated by [m.sem] and returns [s]:
    two objects, of which [m.sem] and [s.size] are never written.  [m0] and
    [s0] are what the two hold on entry. *)
Definition osal_mutex_create (mdef : osal_mutex_def_t) (m0 s0 : osal_mutex_t) : call osal_mutex_t :=
  let m := mk_sem 1 (hdl_sem m0) in
  let s := mk_sem (hdl_size s0) (def_sem mdef) in
  do_ chSemObjectInit (hdl_sem m) (hdl_size m);
  ret s.

(** [ticks] is a [uint32_t] here, and converted to the kernel's interval
    type at the call. *)
Definition osal_mutex_lock (mutex_hdl : osal_mutex_t) (msec : Z) (ev : wake) : call bool :=
  let ticks :=
    to_uint32
      (if msec =? OSAL_TIMEOUT_WAIT_FOREVER then TIME_INFINITE else TIME_MS2I msec) in
  do msg <- chSemWaitTimeout (hdl_sem mutex_hdl) (to_sysinterval ticks) ev;
  ret (to_bool msg).

Definition osal_mutex_unlock (mutex_hdl : osal_mutex_t) : call bool :=
  do_ chSemSignal (hdl_sem mutex_hdl);
  ret false.

(** *** Queue API

    [qdef_fifo] is the address of the descriptor's embedded control block,
    the value of [&qdef->fifo]. *)

Record osal_queue_def_t := mk_qdef {
  qdef_depth : Z;
  qdef_obj_sz : Z;
  qdef_objbuf : Z;
  qdef_msgbuf : Z;
  qdef_fifo : Z
}.

Record osal_queue_t := mk_queue {
  q_obj_sz : Z;
  q_fifo : Z
}.

(** The source returns [&qdef->fifo] where an [osal_queue_t] is expected: the
    reference reaches the handle's [fifo] member and no statement writes its
    [obj_sz] member, which keeps what the returned object [r0] held. *)
Definition osal_queue_create (qdef : osal_queue_def_t) (r0 : osal_queue_t) : call osal_queue_t :=
  do_ chFifoObjectInit (qdef_fifo qdef) (qdef_obj_sz qdef) (qdef_depth qdef)
                       (qdef_objbuf qdef) (qdef_msgbuf qdef);
  ret (mk_queue (q_obj_sz r0) (qdef_fifo qdef)).

(** [objpp] is declared and never assigned: the kernel stores the fetched
    object pointer wherever [objpp0] points, and both later uses of [*objpp]
    read that place again. *)
Definition osal_queue_receive (qhdl : osal_queue_t) (data : Z) (objpp0 : Z) : call bool :=
  let objpp := objpp0 in
  do msg <- chFifoReceiveObjectTimeout (q_fifo qhdl) objpp TIME_INFINITE;
  let r := negb (msg =? MSG_OK) in
  if r then ret true
  else
    do src <- deref objpp;
    do_ memcpy data src (q_obj_sz qhdl);
    do obj <- deref objpp;
    do_ chFifoReturnObject (q_fifo qhdl) obj;
    ret false.

Definition osal_queue_send (qhdl : osal_queue_t) (data : Z) (in_isr : bool) : call bool :=
  if negb in_isr then
    do obj <- chFifoTakeObjectTimeout (q_fifo qhdl) data TIME_INFINITE;
    if obj =? NULL then ret true
    else
      do_ memcpy obj data (q_obj_sz qhdl);
      do msg <- chFifoSendObject (q_fifo qhdl) obj TIME_INFINITE;
      ret (negb (msg =? MSG_OK))
  else
    do_ chSysLockFromISR;
    do obj <- chFifoTakeObjectI (q_fifo qhdl);
    do_ chSysUnlockFromISR;
    if obj =? NULL then ret true
    else
      do_ memcpy obj data (q_obj_sz qhdl);
      do_ chSysLockFromISR;
      do_ chFifoSendObjectI (q_fifo qhdl) obj;
      do_ chSysUnlockFromISR;
      ret false.

Definition osal_queue_empty (qhdl : osal_queue_t) : call bool :=
  do_ chSysLock;
  do free <- chMBGetFreeCountI (q_fifo qhdl);
  let cnt := to_uint16 free in
  do_ chSysUnlock;
  ret (cnt =? 0).

End OSAL.

(** ** Observations used in the statements *)

(** The objects the queue's mailbox holds ready: posted, not yet fetched. *)
Definition ready_objects (qhdl : osal_queue_t) (k : kernel) : option (list Z) :=
  mbx_msgs <$> k_fifos k !! q_fifo qhdl.

(** The free slots of the queue's pool. *)
Definition free_slots (qhdl : osal_queue_t) (k : kernel) : option (list Z) :=
  pool_free <$> k_fifos k !! q_fifo qhdl.

(** A run of sends, each of which returns [false]; [None] if one does not. *)
Fixpoint sends (qhdl : osal_queue_t) (l : list (Z * bool)) (k : kernel) : option kernel :=
  match l with
  | [] => Some k
  | (data, in_isr) :: l' =>
      match osal_queue_send qhdl data in_isr k with
      | Ret false k' => sends qhdl l' k'
      | _ => None
      end
  end.

(** The state a successful send leaves: slot [p] has left the pool, holds a
    copy of the [n] bytes at [data], and is the newest message. *)
Definition sent_state (ofp : Z) (f : objects_fifo_t) (p : Z) (rest : list Z)
    (data n : Z) (k : kernel) : kernel :=
  mk_kernel (k_lock k) (k_sems k)
    (<[ofp := mk_fifo (pool_objsize f) rest (mbx_buffer f) (mbx_size f)
                      (mbx_msgs f ++ [p]) (mbx_reset f)]> (k_fifos k))
    (write_bytes (k_mem k) p (read_bytes (k_mem k) data (Z.to_nat n))).

(** The state a successful receive leaves, the mailbox having held [m] as
    its oldest message: the kernel has stored [m] through [objpp], [n] bytes
    have been copied to [out] from where [*objpp] then pointed, and what
    [*objpp] holds after the copy is back in the pool. *)
Definition received_state (ofp : Z) (f : objects_fifo_t) (m : Z) (rest : list Z)
    (out objpp n : Z) (k : kernel) : kernel :=
  let mem1 := store_ptr (k_mem k) objpp m in
  let mem2 := write_bytes mem1 out (read_bytes mem1 (load_ptr mem1 objpp) (Z.to_nat n)) in
  mk_kernel (k_lock k) (k_sems k)
    (<[ofp := mk_fifo (pool_objsize f) (load_ptr mem2 objpp :: pool_free f)
                      (mbx_buffer f) (mbx_size f) rest (mbx_reset f)]> (k_fifos k))
    mem2.

(** Two byte ranges that do not overlap. *)
Definition disjoint (a la b lb : Z) : Prop := a + la <= b \/ b + lb <= a.

(** The caller's side of a scenario: filling a buffer, reading one back, the
    value a run returns, and the state before anything is created. *)
Definition poke (a : Z) (l : list Z) : call unit :=
  fun k => Ret tt (set_mem (write_bytes (k_mem k) a l) k).

Definition peek (a : Z) (n : nat) : call (list Z) :=
  fun k => Ret (read_bytes (k_mem k) a n) k.

Definition observe {A : Type} (g : kernel -> A) : call A :=
  fun k => Ret (g k) k.

Definition returned {A : Type} (o : outcome A) : option A :=
  match o with
  | Ret r _ => Some r
  | _ => None
  end.

Definition boot : kernel := mk_kernel false ∅ ∅ ∅.

(** A queue of four two-byte objects: object buffer at 0x1000, message
    buffer at 0x2000, control block at 0x3000; a handle on it that carries
    the object size; its control block just initialised, and with all four
    slots posted. *)
Definition demo_qdef : osal_queue_def_t := mk_qdef 4 2 4096 8192 12288.
Definition demo_queue : osal_queue_t := mk_queue 2 12288.

Definition demo_fresh_fifo : objects_fifo_t :=
  mk_fifo 2 [4102; 4100; 4098; 4096] 8192 4 [] false.
Definition demo_full_fifo : objects_fifo_t :=
  mk_fifo 2 [] 8192 4 [4102; 4100; 4098; 4096] false.

Definition demo_fresh : kernel := set_fifo 12288 demo_fresh_fifo boot.
Definition demo_full : kernel := set_fifo 12288 demo_full_fifo boot.

Definition four_sends : list (Z * bool) :=
  [(256, false); (256, false); (256, true); (256, false)].

(** A run of waits on one semaphore, each with its timeout and with what the
    rest of the system does meanwhile; every one of them returns [false],
    or the run is [None]. *)
Fixpoint waits (freq : Z) (sem_hdl : osal_semaphore_t) (l : list (Z * wake))
    (k : kernel) : option kernel :=
  match l with
  | [] => Some k
  | (msec, ev) :: l' =>
      match osal_semaphore_wait freq sem_hdl msec ev k with
      | Ret false k' => waits freq sem_hdl l' k'
      | _ => None
      end
  end.

(** The state a send leaves when it took slot [p] and its post did not go
    through: the slot is out of the pool and holds the payload, the mailbox
    is as before. *)
Definition taken_state (ofp : Z) (f : objects_fifo_t) (p : Z) (rest : list Z)
    (data n : Z) (k : kernel) : kernel :=
  mk_kernel (k_lock k) (k_sems k)
    (<[ofp := set_free rest f]> (k_fifos k))
    (write_bytes (k_mem k) p (read_bytes (k_mem k) data (Z.to_nat n))).

(** A semaphore handle of capacity 2 on a semaphore at 0x2000, and the state
    in which that semaphore holds count [c]. *)
Definition demo_sem : osal_semaphore_t := mk_sem 2 8192.
Definition demo_sem_at (c : Z) : kernel := set_sem 8192 c boot.

(** The demo queue with one message posted and its mailbox in reset state. *)
Definition demo_reset_fifo : objects_fifo_t :=
  mk_fifo 2 [4100; 4098; 4096] 8192 4 [4102] true.
Definition demo_reset : kernel := set_fifo 12288 demo_reset_fifo boot.

Ltac unfold_calls :=
  unfold osal_queue_send, osal_queue_receive, osal_queue_empty,
    chFifoTakeObjectTimeout, chFifoTakeObjectI, chFifoSendObject,
    chFifoSendObjectI, chFifoReceiveObjectTimeout, chFifoReturnObject,
    chMBGetFreeCountI, chSysLockFromISR, chSysUnlockFromISR, chSysLock,
    chSysUnlock, memcpy, deref, expire, the_fifo, thread_class, i_class,
    bind, ret.

(** Closes one case of a send: the state it leaves, with [f'] the fifo in
    it. *)
Ltac send_case f' :=
  intros [= <- <-]; simpl;
  split; [reflexivity|]; split; [reflexivity|];
  exists f'; rewrite ?lookup_insert_eq; simpl;
  repeat split; simpl;
  try reflexivity; try assumption; try (apply prefix_app_r; reflexivity);
  try (apply suffix_cons_r; reflexivity);
  try match goal with H : pool_free _ = _ |- _ => rewrite H; reflexivity end;
  rewrite ?length_app; simpl; try lia.

(** ** Basic facts: the lock bracket and the state setters *)

Lemma set_lock_bracket k : k_lock k = false -> set_lock false (set_lock true k) = k.
Proof. destruct k as [l s f m]; simpl; intros ->; reflexivity. Qed.

Lemma chSysLock_ok k : k_lock k = false -> chSysLock k = Ret tt (set_lock true k).
Proof. unfold chSysLock, bind, thread_class; intros ->; reflexivity. Qed.

Lemma chSysUnlock_ok k : k_lock k = true -> chSysUnlock k = Ret tt (set_lock false k).
Proof. unfold chSysUnlock, bind, i_class; intros ->; reflexivity. Qed.

Lemma to_sysinterval_idem x : to_sysinterval (to_sysinterval x) = to_sysinterval x.
Proof. unfold to_sysinterval; apply Z.mod_mod; lia. Qed.

Lemma to_sysinterval_uint32 x : to_sysinterval (to_uint32 x) = to_sysinterval x.
Proof. unfold to_sysinterval, to_uint32; apply Z.mod_mod; lia. Qed.

Lemma TIME_INFINITE_val : TIME_INFINITE = 4294967295.
Proof. reflexivity. Qed.

(** ** Memory *)

Lemma length_read_bytes m a n : length (read_bytes m a n) = n.
Proof. revert a; induction n as [|n IH]; intros a; simpl; [reflexivity|]. now rewrite IH. Qed.

Lemma load_write_bytes_other m a l a' :
  a' < a \/ a + Z.of_nat (length l) <= a' ->
  load (write_bytes m a l) a' = load m a'.
Proof.
  revert m a; induction l as [|b l IH]; intros m a H; simpl; [reflexivity|].
  rewrite IH by (simpl in H; lia).
  unfold load. rewrite lookup_insert_ne by (simpl in H; lia). reflexivity.
Qed.

Lemma read_write_bytes_same m a l :
  read_bytes (write_bytes m a l) a (length l) = l.
Proof.
  revert m a; induction l as [|b l IH]; intros m a; simpl; [reflexivity|].
  rewrite IH. f_equal.
  rewrite load_write_bytes_other by lia.
  unfold load. now rewrite lookup_insert_eq.
Qed.

Lemma read_write_bytes_disjoint m a l b n :
  b + Z.of_nat n <= a \/ a + Z.of_nat (length l) <= b ->
  read_bytes (write_bytes m a l) b n = read_bytes m b n.
Proof.
  revert b; induction n as [|n IH]; intros b H; simpl; [reflexivity|].
  rewrite IH by lia. f_equal. apply load_write_bytes_other. lia.
Qed.

Lemma bytes_ptr_ptr_bytes p : 0 <= p < 2 ^ 32 -> bytes_ptr (ptr_bytes p) = p.
Proof.
  intros H. unfold bytes_ptr, ptr_bytes; simpl.
  assert (p / 16777216 < 256) by (apply Z.div_lt_upper_bound; lia).
  assert (0 <= p / 16777216) by (apply Z.div_pos; lia).
  rewrite (Z.mod_small (p / 16777216)) by lia.
  pose proof (Z.div_mod p 256 ltac:(lia)).
  pose proof (Z.div_mod (p / 256) 256 ltac:(lia)).
  pose proof (Z.div_mod (p / 256 / 256) 256 ltac:(lia)).
  rewrite (Z.div_div p 256 256) in * by lia.
  rewrite (Z.div_div p (256 * 256) 256) in * by lia.
  change (256 * 256) with 65536 in *. change (65536 * 256) with 16777216 in *.
  lia.
Qed.

Lemma load_store_ptr m a p : 0 <= p < 2 ^ 32 -> load_ptr (store_ptr m a p) a = p.
Proof.
  intros H. unfold load_ptr, store_ptr.
  change (Z.to_nat sizeof_ptr) with (length (ptr_bytes p)).
  rewrite read_write_bytes_same. now apply bytes_ptr_ptr_bytes.
Qed.

Lemma load_ptr_write_bytes_disjoint m a l pp :
  pp + sizeof_ptr <= a \/ a + Z.of_nat (length l) <= pp ->
  load_ptr (write_bytes m a l) pp = load_ptr m pp.
Proof.
  intros H. unfold load_ptr. f_equal. apply read_write_bytes_disjoint.
  unfold sizeof_ptr in *. simpl. lia.
Qed.

Lemma read_write_bytes_same_len m a l n :
  length l = n -> read_bytes (write_bytes m a l) a n = l.
Proof. intros <-. apply read_write_bytes_same. Qed.

Lemma read_store_ptr_disjoint m pp p b n :
  disjoint pp sizeof_ptr b (Z.of_nat n) ->
  read_bytes (store_ptr m pp p) b n = read_bytes m b n.
Proof.
  intros H. unfold store_ptr. apply read_write_bytes_disjoint.
  unfold disjoint, sizeof_ptr in H. simpl. lia.
Qed.

(** ** Queue: what each call does *)

Lemma send_returns qhdl data in_isr k f p rest :
  k_lock k = false ->
  k_fifos k !! q_fifo qhdl = Some f ->
  pool_free f = p :: rest ->
  p <> NULL ->
  mbx_reset f = false ->
  mbx_full f = false ->
  osal_queue_send qhdl data in_isr k =
    Ret false (sent_state (q_fifo qhdl) f p rest data (q_obj_sz qhdl) k).
Proof.
  intros Hl Hf Hfree Hp Hr Hfull.
  apply Z.eqb_neq in Hp.
  destruct k as [l sems fifos mem]; simpl in *; subst l.
  destruct in_isr; unfold_calls; simpl; rewrite Hf, Hfree; simpl; rewrite Hp; simpl.
  - rewrite lookup_insert_eq. simpl. rewrite Hr. unfold mbx_full in *; simpl. rewrite Hfull. simpl.
    unfold sent_state, set_fifo, set_msgs, set_free; simpl. rewrite insert_insert_eq. reflexivity.
  - rewrite lookup_insert_eq. simpl. rewrite Hr. unfold mbx_full in *; simpl. rewrite Hfull. simpl.
    unfold sent_state, set_fifo, set_msgs, set_free; simpl. rewrite insert_insert_eq. reflexivity.
Qed.

Lemma isr_send_exhausted qhdl data k f :
  k_lock k = false ->
  k_fifos k !! q_fifo qhdl = Some f ->
  pool_free f = [] ->
  osal_queue_send qhdl data true k = Ret true k.
Proof.
  intros Hl Hf Hfree.
  unfold osal_queue_send; simpl.
  unfold chSysLockFromISR, chSysUnlockFromISR, bind at 1.
  rewrite (chSysLock_ok _ Hl).
  unfold bind at 1, chFifoTakeObjectI, bind at 1, i_class; simpl.
  unfold bind at 1, the_fifo; simpl. rewrite Hf, Hfree.
  unfold ret at 1, bind at 1.
  rewrite chSysUnlock_ok by reflexivity.
  rewrite (set_lock_bracket _ Hl). reflexivity.
Qed.

Lemma thread_send_exhausted qhdl data k f :
  k_lock k = false ->
  k_fifos k !! q_fifo qhdl = Some f ->
  pool_free f = [] ->
  osal_queue_send qhdl data false k = Blocks.
Proof.
  intros Hl Hf Hfree. unfold_calls; simpl. rewrite Hl, Hf, Hfree. reflexivity.
Qed.

Lemma thread_send_not_blocked qhdl data k f p rest :
  k_lock k = false ->
  k_fifos k !! q_fifo qhdl = Some f ->
  pool_free f = p :: rest ->
  mbx_reset f = false ->
  mbx_full f = false ->
  exists k', osal_queue_send qhdl data false k = Ret (p =? NULL) k'.
Proof.
  intros Hl Hf Hfree Hr Hfull.
  destruct (Z.eq_dec p NULL) as [Hp|Hp].
  - subst p. unfold_calls; simpl. rewrite Hl, Hf, Hfree. simpl. eauto.
  - rewrite (send_returns _ _ _ _ _ _ _ Hl Hf Hfree Hp Hr Hfull).
    apply Z.eqb_neq in Hp. rewrite Hp. eauto.
Qed.

Lemma send_success_inv qhdl data in_isr k k' :
  osal_queue_send qhdl data in_isr k = Ret false k' ->
  k_lock k = false /\ k_lock k' = false /\
  exists f f' p,
    k_fifos k !! q_fifo qhdl = Some f /\
    k_fifos k' !! q_fifo qhdl = Some f' /\
    pool_free f = p :: pool_free f'.
Proof.
  destruct k as [l sems fifos mem].
  destruct in_isr; unfold_calls; simpl;
    destruct l; simpl; try discriminate;
    destruct (fifos !! q_fifo qhdl) as [f|] eqn:Hf; simpl; try discriminate;
    destruct (pool_free f) as [|p rest] eqn:Hfree; simpl; try discriminate;
    destruct (p =? NULL); simpl; try discriminate;
    rewrite lookup_insert_eq; simpl.
  - destruct (mbx_reset f || mbx_full (set_free rest f)); simpl;
      intros [= <-]; simpl; (split; [reflexivity|]); (split; [reflexivity|]);
      exists f; eexists; exists p; rewrite lookup_insert_eq; (split; [reflexivity|]);
      (split; [reflexivity|]); simpl; assumption.
  - destruct (mbx_reset f); simpl; try discriminate.
    destruct (mbx_full (set_free rest f)); simpl; try discriminate.
    intros [= <-]; simpl. split; [reflexivity|]. split; [reflexivity|].
    exists f; eexists; exists p. rewrite lookup_insert_eq. split; [reflexivity|].
    split; [reflexivity|]. simpl; assumption.
Qed.

Lemma sends_pool qhdl l : forall k k' f,
  k_lock k = false ->
  k_fifos k !! q_fifo qhdl = Some f ->
  sends qhdl l k = Some k' ->
  k_lock k' = false /\
  exists f', k_fifos k' !! q_fifo qhdl = Some f' /\
             length (pool_free f) = (length l + length (pool_free f'))%nat.
Proof.
  induction l as [|[data isr] l IH]; intros k k' f Hl Hf Hs; simpl in Hs.
  - injection Hs as <-. split; [assumption|]. exists f. split; [assumption|reflexivity].
  - destruct (osal_queue_send qhdl data isr k) as [[|] k1| |] eqn:Hsend; try discriminate.
    apply send_success_inv in Hsend as (_ & Hl1 & f0 & f1 & p & Hf0 & Hf1 & Hfree).
    rewrite Hf in Hf0; injection Hf0 as <-.
    destruct (IH _ _ _ Hl1 Hf1 Hs) as (Hl' & f' & Hf' & Hlen).
    split; [assumption|]. exists f'. split; [assumption|].
    rewrite Hfree; simpl. lia.
Qed.

Lemma length_chPoolLoadArray free p sz n :
  length (chPoolLoadArray free p sz n) = (n + length free)%nat.
Proof.
  revert free p; induction n as [|n IH]; intros free p; simpl; [reflexivity|].
  rewrite IH; simpl. lia.
Qed.

Lemma queue_create_returns qdef r0 k :
  osal_queue_create qdef r0 k =
    Ret (mk_queue (q_obj_sz r0) (qdef_fifo qdef))
        (set_fifo (qdef_fifo qdef)
           (mk_fifo (qdef_obj_sz qdef)
              (chPoolLoadArray [] (qdef_objbuf qdef) (qdef_obj_sz qdef)
                 (Z.to_nat (qdef_depth qdef)))
              (qdef_msgbuf qdef) (qdef_depth qdef) [] false) k).
Proof. reflexivity. Qed.

Lemma receive_success_inv qhdl out objpp0 k k' :
  osal_queue_receive qhdl out objpp0 k = Ret false k' ->
  k_lock k = false /\
  exists f m rest,
    k_fifos k !! q_fifo qhdl = Some f /\
    mbx_reset f = false /\
    mbx_msgs f = m :: rest /\
    k' = received_state (q_fifo qhdl) f m rest out objpp0 (q_obj_sz qhdl) k.
Proof.
  destruct k as [l sems fifos mem].
  unfold_calls; simpl.
  destruct l; simpl; try discriminate.
  destruct (fifos !! q_fifo qhdl) as [f|] eqn:Hf; simpl; try discriminate.
  destruct (mbx_reset f) eqn:Hr; simpl; try discriminate.
  destruct (mbx_msgs f) as [|m rest] eqn:Hm; simpl; try discriminate.
  rewrite lookup_insert_eq; simpl.
  intros [= <-]. split; [reflexivity|].
  exists f, m, rest. repeat (split; [reflexivity || assumption|]).
  unfold received_state, set_fifo, set_mem, set_free, set_msgs; simpl.
  rewrite insert_insert_eq. reflexivity.
Qed.

Lemma receive_returns qhdl out objpp0 k f m rest :
  k_lock k = false ->
  k_fifos k !! q_fifo qhdl = Some f ->
  mbx_reset f = false ->
  mbx_msgs f = m :: rest ->
  osal_queue_receive qhdl out objpp0 k =
    Ret false (received_state (q_fifo qhdl) f m rest out objpp0 (q_obj_sz qhdl) k).
Proof.
  intros Hl Hf Hr Hm.
  destruct k as [l sems fifos mem]; simpl in *; subst l.
  unfold_calls; simpl. rewrite Hf; simpl. rewrite Hr, Hm; simpl.
  rewrite lookup_insert_eq; simpl.
  unfold received_state, set_fifo, set_mem, set_free, set_msgs; simpl.
  rewrite insert_insert_eq. reflexivity.
Qed.

Lemma isr_send_never_blocks qhdl data k :
  osal_queue_send qhdl data true k <> Blocks.
Proof.
  destruct k as [l sems fifos mem]. unfold_calls; simpl.
  destruct l; simpl; [discriminate|].
  destruct (fifos !! q_fifo qhdl) as [f|]; simpl; [|discriminate].
  destruct (pool_free f) as [|p rest]; simpl; [discriminate|].
  destruct (p =? NULL); simpl; [discriminate|].
  rewrite lookup_insert_eq; simpl.
  destruct (mbx_reset f || mbx_full (set_free rest f)); discriminate.
Qed.

(** ** Queue: sending with the pool exhausted *)

(** C10: an interrupt-context send that finds no free slot returns [true]
    and leaves the kernel state exactly as it found it: no byte of the
    payload is copied, no slot leaves the pool, nothing is posted. *)
Theorem isr_send_failure_is_atomic qhdl data k f :
  k_lock k = false ->
  k_fifos k !! q_fifo qhdl = Some f ->
  pool_free f = [] ->
  osal_queue_send qhdl data true k = Ret true k.
Proof. apply isr_send_exhausted. Qed.

Lemma thread_send_failure_inv qhdl data k f k' :
  k_fifos k !! q_fifo qhdl = Some f ->
  osal_queue_send qhdl data false k = Ret true k' ->
  exists p rest, pool_free f = p :: rest /\ (p = NULL \/ mbx_reset f = true).
Proof.
  intros Hf. destruct k as [l sems fifos mem]; simpl in Hf.
  unfold_calls; simpl.
  destruct l; simpl; [discriminate|]. rewrite Hf; simpl.
  destruct (pool_free f) as [|p rest]; simpl; [discriminate|].
  intros Hsend. exists p, rest. split; [reflexivity|].
  destruct (Z.eqb_spec p NULL) as [E|E]; [left; exact E|right].
  simpl in Hsend. rewrite lookup_insert_eq in Hsend; simpl in Hsend.
  destruct (mbx_reset f); [reflexivity|].
  destruct (mbx_full (set_free rest f)); simpl in Hsend; discriminate.
Qed.

(** C2: a thread-context send acquires its slot with the infinite timeout.
    With the pool exhausted it does not return: the caller stays blocked
    instead of reporting a failure, where the interrupt-context send returns
    [true] in the same state.  With a free slot and room in the mailbox it
    returns [false] and has acquired that slot: the slot has left the pool,
    holds a copy of the payload and is the newest ready object.  Whenever it
    does return [true] the pool was not empty: the slot it took is a null
    pointer or the post failed on a mailbox in reset state.  And once a
    receive has handed a slot back to the exhausted pool, that slot is the
    one free slot, the oldest ready object is gone, and the blocked send
    goes through with exactly that slot (a non-null one; a null one falls
    under the failures just named). *)
Theorem thread_send_waits_for_slot qhdl data k f :
  k_lock k = false ->
  k_fifos k !! q_fifo qhdl = Some f ->
  (pool_free f = [] ->
   osal_queue_send qhdl data false k = Blocks
   /\ osal_queue_send qhdl data true k = Ret true k)
  /\ (forall p rest,
        pool_free f = p :: rest ->
        p <> NULL ->
        mbx_reset f = false ->
        mbx_full f = false ->
        osal_queue_send qhdl data false k =
          Ret false (sent_state (q_fifo qhdl) f p rest data (q_obj_sz qhdl) k))
  /\ (forall k',
        osal_queue_send qhdl data false k = Ret true k' ->
        exists p rest, pool_free f = p :: rest /\ (p = NULL \/ mbx_reset f = true))
  /\ (pool_free f = [] ->
      Z.of_nat (length (mbx_msgs f)) <= mbx_size f ->
      forall out objpp0 k1,
        osal_queue_receive qhdl out objpp0 k = Ret false k1 ->
        exists f1 obj,
          k_fifos k1 !! q_fifo qhdl = Some f1 /\
          pool_free f1 = [obj] /\
          mbx_msgs f = hd 0 (mbx_msgs f) :: mbx_msgs f1 /\
          (obj <> NULL ->
           osal_queue_send qhdl data false k1 =
             Ret false (sent_state (q_fifo qhdl) f1 obj [] data (q_obj_sz qhdl) k1))).
Proof.
  intros Hl Hf.
  split.
  { intros Hfree. split; [eapply thread_send_exhausted; eauto|].
    eapply isr_send_exhausted; eauto. }
  split.
  { intros p rest Hfree Hp Hr Hfull.
    exact (send_returns qhdl data false k f p rest Hl Hf Hfree Hp Hr Hfull). }
  split.
  { intros k'. exact (thread_send_failure_inv qhdl data k f k' Hf). }
  intros Hfree Hcap out objpp0 k1 Hrecv.
  apply receive_success_inv in Hrecv as (_ & f0 & m & rest & Hf0 & Hr & Hm & ->).
  rewrite Hf in Hf0; injection Hf0 as <-.
  set (k1 := received_state _ _ _ _ _ _ _ _).
  set (obj := load_ptr (k_mem k1) objpp0).
  set (f1 := mk_fifo (pool_objsize f) (obj :: pool_free f) (mbx_buffer f) (mbx_size f)
                     rest (mbx_reset f)).
  assert (Hf1 : k_fifos k1 !! q_fifo qhdl = Some f1) by apply lookup_insert_eq.
  exists f1, obj. split; [exact Hf1|].
  split; [simpl; now rewrite Hfree|].
  split; [rewrite Hm; reflexivity|].
  intros Hobj.
  apply (send_returns qhdl data false k1 f1 obj []); try assumption.
  - simpl. now rewrite Hfree.
  - unfold mbx_full; simpl. rewrite Hm in Hcap; simpl in Hcap. apply Z.leb_gt. lia.
Qed.

(** C3: an interrupt-context send never blocks; made outside a lock
    bracket on an initialised queue whose free slots are non-null it returns,
    and returns [true] exactly when the pool has no free slot.  In
    particular, on a queue created with depth D, after D sends that
    succeeded and no receive, an interrupt-context send returns [true] (and
    changes nothing). *)
Theorem isr_send_fails_iff_exhausted :
  (forall qhdl data k, osal_queue_send qhdl data true k <> Blocks)
  /\ (forall qhdl data k f,
      k_lock k = false ->
      k_fifos k !! q_fifo qhdl = Some f ->
      Forall (fun p => p <> NULL) (pool_free f) ->
      exists b k', osal_queue_send qhdl data true k = Ret b k' /\
                   (b = true <-> pool_free f = []))
  /\ (forall qdef r0 k qhdl kc l k2 data,
        k_lock k = false ->
        osal_queue_create qdef r0 k = Ret qhdl kc ->
        length l = Z.to_nat (qdef_depth qdef) ->
        sends qhdl l kc = Some k2 ->
        osal_queue_send qhdl data true k2 = Ret true k2).
Proof.
  split; [exact isr_send_never_blocks|].
  split.
  - intros qhdl data k f Hl Hf Hnn.
    destruct (pool_free f) as [|p rest] eqn:Hfree.
    + exists true, k. split; [eapply isr_send_exhausted; eauto|tauto].
    + assert (Hp : p <> NULL) by (inversion Hnn; assumption).
      apply Z.eqb_neq in Hp.
      destruct k as [l sems fifos mem]; simpl in *; subst l.
      unfold_calls; simpl. rewrite Hf, Hfree; simpl. rewrite Hp; simpl.
      rewrite lookup_insert_eq; simpl.
      destruct (mbx_reset f || mbx_full (set_free rest f)); simpl;
        eexists; eexists; (split; [reflexivity|]); split; discriminate.
  - intros qdef r0 k qhdl kc l k2 data Hl Hc Hlen Hs.
    rewrite queue_create_returns in Hc. injection Hc as <- <-.
    set (f0 := mk_fifo _ _ _ _ _ _) in Hs.
    assert (Hf0 : k_fifos (set_fifo (qdef_fifo qdef) f0 k) !! qdef_fifo qdef = Some f0)
      by (simpl; apply lookup_insert_eq).
    destruct (sends_pool (mk_queue (q_obj_sz r0) (qdef_fifo qdef)) l _ _ f0
                (Hl : k_lock (set_fifo _ f0 k) = false) Hf0 Hs)
      as (Hl2 & f2 & Hf2 & Hcount).
    eapply isr_send_exhausted; eauto.
    unfold f0 in Hcount; simpl in Hcount.
    rewrite length_chPoolLoadArray in Hcount; simpl in Hcount.
    destruct (pool_free f2); [reflexivity|simpl in Hcount; lia].
Qed.

(** ** Semaphore and mutex *)

Lemma chSemWaitTimeout_msg sp ticks ev k msg k' :
  chSemWaitTimeout sp ticks ev k = Ret msg k' ->
  msg = MSG_OK \/ msg = MSG_TIMEOUT \/ msg = MSG_RESET.
Proof.
  unfold chSemWaitTimeout, bind, thread_class, the_sem.
  destruct (k_lock k); try discriminate.
  destruct (k_sems k !! sp) as [c|]; try discriminate.
  destruct (0 <? c); [intros [= <- <-]; auto|].
  destruct (ticks =? TIME_IMMEDIATE); [intros [= <- <-]; auto|].
  destruct ev; [intros [= <- <-]; auto|intros [= <- <-]; auto|].
  destruct (ticks =? TIME_INFINITE); [discriminate|intros [= <- <-]; auto].
Qed.

Section Waiting.

(** The tick frequency the kernel is configured with. *)
Variable freq : Z.

Lemma TIME_MS2I_interval msec : to_sysinterval (TIME_MS2I freq msec) = TIME_MS2I freq msec.
Proof. unfold TIME_MS2I. apply to_sysinterval_idem. Qed.

Lemma wait_ticks_interval msec :
  to_sysinterval (if msec =? OSAL_TIMEOUT_WAIT_FOREVER then TIME_INFINITE else TIME_MS2I freq msec)
  = (if msec =? OSAL_TIMEOUT_WAIT_FOREVER then TIME_INFINITE else TIME_MS2I freq msec).
Proof.
  destruct (msec =? OSAL_TIMEOUT_WAIT_FOREVER); [reflexivity|apply TIME_MS2I_interval].
Qed.

(** A positive count is taken without waiting, whatever the timeout. *)
Lemma semaphore_wait_takes_count sem_hdl msec ev k c :
  k_lock k = false ->
  k_sems k !! hdl_sem sem_hdl = Some c ->
  0 < c ->
  osal_semaphore_wait freq sem_hdl msec ev k = Ret false (set_sem (hdl_sem sem_hdl) (c - 1) k).
Proof.
  intros Hl Hs Hc. unfold osal_semaphore_wait, chSemWaitTimeout, bind, thread_class, the_sem, ret.
  rewrite Hl, Hs. apply Z.ltb_lt in Hc. rewrite Hc. reflexivity.
Qed.

(** With the sentinel and no count to take, the caller sleeps until a signal
    or a reset: it is never woken by a timeout. *)
Lemma semaphore_wait_forever sem_hdl ev k c :
  k_lock k = false ->
  k_sems k !! hdl_sem sem_hdl = Some c ->
  c <= 0 ->
  osal_semaphore_wait freq sem_hdl OSAL_TIMEOUT_WAIT_FOREVER ev k =
    match ev with
    | Signalled => Ret false k
    | ResetTo n => Ret true (set_sem (hdl_sem sem_hdl) n k)
    | Quiet => Blocks
    end.
Proof.
  intros Hl Hs Hc. unfold osal_semaphore_wait, chSemWaitTimeout, bind, thread_class, the_sem, ret.
  rewrite Hl, Hs. apply Z.ltb_ge in Hc. rewrite Hc. simpl. destruct ev; reflexivity.
Qed.

(** With a finite timeout and no count to take, a quiet system lets the wait
    time out: the call returns [true] and the semaphore is as before. *)
Lemma semaphore_wait_times_out sem_hdl msec k c :
  k_lock k = false ->
  k_sems k !! hdl_sem sem_hdl = Some c ->
  c <= 0 ->
  msec <> OSAL_TIMEOUT_WAIT_FOREVER ->
  TIME_MS2I freq msec <> TIME_INFINITE ->
  osal_semaphore_wait freq sem_hdl msec Quiet k = Ret true k.
Proof.
  intros Hl Hs Hc Hm Ht. unfold osal_semaphore_wait, chSemWaitTimeout, bind, thread_class, the_sem, ret.
  rewrite Hl, Hs. apply Z.ltb_ge in Hc. rewrite Hc.
  apply Z.eqb_neq in Hm. rewrite Hm. rewrite TIME_MS2I_interval.
  apply Z.eqb_neq in Ht. rewrite Ht.
  destruct (TIME_MS2I freq msec =? TIME_IMMEDIATE); reflexivity.
Qed.

(** C8: the wait hands the kernel the infinite timeout when [msec] is the
    sentinel and the millisecond-to-tick conversion of [msec] otherwise, and
    it returns [false] exactly when the kernel wait returned [MSG_OK] (the
    count was taken) and [true] exactly when it returned [MSG_TIMEOUT] or
    [MSG_RESET]. *)
Theorem osal_semaphore_wait_result sem_hdl msec ev k :
  let ticks :=
    if msec =? OSAL_TIMEOUT_WAIT_FOREVER then TIME_INFINITE else TIME_MS2I freq msec in
  match chSemWaitTimeout (hdl_sem sem_hdl) ticks ev k with
  | Ret msg k' =>
      (msg = MSG_OK /\ osal_semaphore_wait freq sem_hdl msec ev k = Ret false k')
      \/ ((msg = MSG_TIMEOUT \/ msg = MSG_RESET)
          /\ osal_semaphore_wait freq sem_hdl msec ev k = Ret true k')
  | Blocks => osal_semaphore_wait freq sem_hdl msec ev k = Blocks
  | Fault => osal_semaphore_wait freq sem_hdl msec ev k = Fault
  end.
Proof.
  intros ticks. unfold osal_semaphore_wait.
  rewrite wait_ticks_interval. fold ticks. unfold bind, ret.
  destruct (chSemWaitTimeout (hdl_sem sem_hdl) ticks ev k) as [msg k'| |] eqn:Hw;
    [|reflexivity|reflexivity].
  apply chSemWaitTimeout_msg in Hw as [->|[->| ->]]; [left|right|right]; split; auto.
Qed.

(** C7: locking a mutex is waiting on its semaphore: for every handle,
    timeout and behaviour of the rest of the system the two calls hand the
    kernel the same wait and end with the same result and state. *)
Theorem osal_mutex_lock_is_semaphore_wait hdl msec ev k :
  osal_mutex_lock freq hdl msec ev k = osal_semaphore_wait freq hdl msec ev k.
Proof.
  unfold osal_mutex_lock, osal_semaphore_wait.
  rewrite to_sysinterval_uint32. reflexivity.
Qed.

End Waiting.

Lemma semaphore_create_returns semdef k :
  osal_semaphore_create semdef k =
    Ret (mk_sem (def_size semdef) (def_sem semdef))
        (set_sem (def_sem semdef) (def_size semdef) k).
Proof. reflexivity. Qed.

(** What the mutex constructor does for every descriptor: the handle carries
    the size of the never-written [s], and the semaphore that is initialised
    with count 1 is the one [m.sem] happens to designate. *)
Lemma mutex_create_returns mdef m0 s0 k :
  osal_mutex_create mdef m0 s0 k =
    Ret (mk_sem (hdl_size s0) (def_sem mdef)) (set_sem (hdl_sem m0) 1 k).
Proof. reflexivity. Qed.

(** ** Queue: what travels through it *)

(** X18: round trip, for a receive whose [objpp] happens to point at four
    bytes of scratch storage away from the slot: the bytes that arrive in [out]
    are the bytes that were at [data] when the send was made. *)
Lemma roundtrip_with_valid_scratch qhdl data in_isr out objpp0 k f p rest :
  k_lock k = false ->
  k_fifos k !! q_fifo qhdl = Some f ->
  pool_free f = p :: rest ->
  mbx_msgs f = [] ->
  mbx_reset f = false ->
  0 < mbx_size f ->
  0 < p < 2 ^ 32 ->
  disjoint objpp0 sizeof_ptr p (Z.of_nat (Z.to_nat (q_obj_sz qhdl))) ->
  exists k1 k2,
    osal_queue_send qhdl data in_isr k = Ret false k1 /\
    osal_queue_receive qhdl out objpp0 k1 = Ret false k2 /\
    read_bytes (k_mem k2) out (Z.to_nat (q_obj_sz qhdl)) =
      read_bytes (k_mem k) data (Z.to_nat (q_obj_sz qhdl)).
Proof.
  intros Hl Hf Hfree Hm Hr Hsz Hp Hdis.
  assert (Hfull : mbx_full f = false)
    by (unfold mbx_full; rewrite Hm; simpl; apply Z.leb_gt; lia).
  assert (Hnn : p <> NULL) by (unfold NULL; lia).
  rewrite (send_returns _ _ _ _ _ _ _ Hl Hf Hfree Hnn Hr Hfull).
  set (k1 := sent_state _ _ _ _ _ _ _).
  eexists; eexists. split; [reflexivity|].
  erewrite (receive_returns qhdl out objpp0 k1 _ p []);
    [|exact Hl|apply lookup_insert_eq|exact Hr|simpl; rewrite Hm; reflexivity].
  split; [reflexivity|].
  unfold received_state, k1, sent_state; simpl.
  rewrite load_store_ptr by lia.
  rewrite read_write_bytes_same_len by apply length_read_bytes.
  rewrite read_store_ptr_disjoint by exact Hdis.
  apply read_write_bytes_same_len, length_read_bytes.
Qed.

(** X19: first in, first out, for receives whose [objpp] points at scratch
    storage away from both slots and whose first output buffer is away from
    the second slot: A, sent first, is received first, B second. *)
Lemma fifo_with_valid_scratch qhdl dataA dataB isrA isrB outA outB ppA ppB k f pA pB rest :
  let n := Z.to_nat (q_obj_sz qhdl) in
  k_lock k = false ->
  k_fifos k !! q_fifo qhdl = Some f ->
  pool_free f = pA :: pB :: rest ->
  mbx_msgs f = [] ->
  mbx_reset f = false ->
  1 < mbx_size f ->
  0 < pA < 2 ^ 32 ->
  0 < pB < 2 ^ 32 ->
  disjoint pA (Z.of_nat n) pB (Z.of_nat n) ->
  disjoint ppA sizeof_ptr pA (Z.of_nat n) ->
  disjoint ppA sizeof_ptr pB (Z.of_nat n) ->
  disjoint outA (Z.of_nat n) pB (Z.of_nat n) ->
  disjoint ppB sizeof_ptr pB (Z.of_nat n) ->
  exists k1 k2 k3 k4,
    osal_queue_send qhdl dataA isrA k = Ret false k1 /\
    osal_queue_send qhdl dataB isrB k1 = Ret false k2 /\
    osal_queue_receive qhdl outA ppA k2 = Ret false k3 /\
    osal_queue_receive qhdl outB ppB k3 = Ret false k4 /\
    read_bytes (k_mem k3) outA n = read_bytes (k_mem k) dataA n /\
    read_bytes (k_mem k4) outB n = read_bytes (k_mem k1) dataB n.
Proof.
  intros n Hl Hf Hfree Hm Hr Hsz HpA HpB Hslots HppA HppAB HoutA HppB.
  assert (Hfull : mbx_full f = false)
    by (unfold mbx_full; rewrite Hm; simpl; apply Z.leb_gt; lia).
  assert (HnA : pA <> NULL) by (unfold NULL; lia).
  assert (HnB : pB <> NULL) by (unfold NULL; lia).
  pose proof (send_returns qhdl dataA isrA _ _ _ _ Hl Hf Hfree HnA Hr Hfull) as H1.
  set (k1 := sent_state _ _ _ _ _ _ _) in H1.
  set (f1 := mk_fifo (pool_objsize f) (pB :: rest) (mbx_buffer f) (mbx_size f)
                     (mbx_msgs f ++ [pA]) (mbx_reset f)).
  assert (Hf1 : k_fifos k1 !! q_fifo qhdl = Some f1) by apply lookup_insert_eq.
  assert (Hfull1 : mbx_full f1 = false)
    by (unfold mbx_full; simpl; rewrite Hm; simpl; apply Z.leb_gt; lia).
  pose proof (send_returns qhdl dataB isrB k1 f1 pB rest Hl Hf1 eq_refl HnB Hr Hfull1) as H2.
  set (k2 := sent_state _ _ _ _ _ _ _) in H2.
  set (f2 := mk_fifo (pool_objsize f) rest (mbx_buffer f) (mbx_size f)
                     (mbx_msgs f1 ++ [pB]) (mbx_reset f)).
  assert (Hf2 : k_fifos k2 !! q_fifo qhdl = Some f2) by apply lookup_insert_eq.
  assert (Hm2 : mbx_msgs f2 = pA :: [pB]) by (simpl; rewrite Hm; reflexivity).
  pose proof (receive_returns qhdl outA ppA k2 f2 pA [pB] Hl Hf2 Hr Hm2) as H3.
  set (k3 := received_state _ _ _ _ _ _ _ _) in H3.
  set (f3 := mk_fifo (pool_objsize f) (load_ptr (k_mem k3) ppA :: rest) (mbx_buffer f)
                     (mbx_size f) [pB] (mbx_reset f)).
  assert (Hf3 : k_fifos k3 !! q_fifo qhdl = Some f3) by apply lookup_insert_eq.
  pose proof (receive_returns qhdl outB ppB k3 f3 pB [] Hl Hf3 Hr eq_refl) as H4.
  set (k4 := received_state _ _ _ _ _ _ _ _) in H4.
  exists k1, k2, k3, k4.
  do 4 (split; [assumption|]).
  split.
  - unfold k3, received_state; simpl. fold n.
    rewrite load_store_ptr by lia.
    rewrite read_write_bytes_same_len by apply length_read_bytes.
    rewrite read_store_ptr_disjoint by exact HppA.
    rewrite read_write_bytes_disjoint
      by (rewrite length_read_bytes; unfold disjoint in Hslots; lia).
    apply read_write_bytes_same_len, length_read_bytes.
  - unfold k4; unfold received_state at 1; simpl. fold n.
    rewrite !load_store_ptr by lia.
    rewrite read_write_bytes_same_len by apply length_read_bytes.
    rewrite read_store_ptr_disjoint by exact HppB.
    rewrite read_write_bytes_disjoint
      by (rewrite length_read_bytes; unfold disjoint in HoutA; lia).
    rewrite read_store_ptr_disjoint by exact HppAB.
    apply read_write_bytes_same_len, length_read_bytes.
Qed.

(** ** Queue: the emptiness query *)

Lemma queue_empty_returns qhdl k f :
  k_lock k = false ->
  k_fifos k !! q_fifo qhdl = Some f ->
  osal_queue_empty qhdl k =
    Ret (to_uint16 (mbx_size f - Z.of_nat (length (mbx_msgs f))) =? 0) k.
Proof.
  intros Hl Hf. destruct k as [l sems fifos mem]; simpl in *; subst l.
  unfold_calls; simpl. rewrite Hf. reflexivity.
Qed.

(** On a mailbox within its capacity the query answers [true] exactly when
    no message slot is free, that is when the mailbox is full. *)
Lemma queue_empty_iff_full qhdl k f :
  k_lock k = false ->
  k_fifos k !! q_fifo qhdl = Some f ->
  Z.of_nat (length (mbx_msgs f)) <= mbx_size f < 2 ^ 16 ->
  osal_queue_empty qhdl k = Ret true k <-> Z.of_nat (length (mbx_msgs f)) = mbx_size f.
Proof.
  intros Hl Hf Hcap. rewrite (queue_empty_returns _ _ _ Hl Hf).
  unfold to_uint16. rewrite Z.mod_small by lia.
  destruct (Z.eqb_spec (mbx_size f - Z.of_nat (length (mbx_msgs f))) 0) as [E|E].
  - split; [lia|reflexivity].
  - split; [discriminate|lia].
Qed.

(** C1: on a queue just created (depth 4, nothing sent) the mailbox holds
    no ready object and [osal_queue_empty] returns [false]; after four sends
    it holds four and [osal_queue_empty] returns [true].  The function tests
    the number of free message slots, not the number of ready objects. *)
Theorem osal_queue_empty_tests_free_slots :
  returned
    ((do q <- osal_queue_create demo_qdef (mk_queue 2 0);
      do e0 <- osal_queue_empty q;
      do n0 <- observe (ready_objects q);
      do_ osal_queue_send q 256 false;
      do_ osal_queue_send q 256 false;
      do_ osal_queue_send q 256 false;
      do_ osal_queue_send q 256 false;
      do e4 <- osal_queue_empty q;
      do n4 <- observe (ready_objects q);
      ret (e0, n0, e4, n4)) boot)
  = Some (false, Some [], true, Some [4102; 4100; 4098; 4096]).
Proof. vm_compute. reflexivity. Qed.

(** ** Queue: the uninitialised [objpp] *)

(** C4: a send of the payload AA BB followed by a receive whose
    uninitialised [objpp] holds 0x1006, the address of the slot the send
    used.  Both calls return [false], and the receiver gets 06 10: the
    kernel stored the fetched pointer over the payload. *)
Theorem roundtrip_lost_through_objpp :
  returned
    ((do q <- osal_queue_create demo_qdef (mk_queue 2 0);
      do_ poke 256 [170; 187];
      do sent <- osal_queue_send q 256 false;
      do received <- osal_queue_receive q 512 4102;
      do got <- peek 512 2;
      ret (sent, received, got)) boot)
  = Some (false, false, [6; 16]).
Proof. vm_compute. reflexivity. Qed.

(** The same run with [objpp] pointing at unused storage delivers AA BB. *)
Example roundtrip_scratch_objpp :
  returned
    ((do q <- osal_queue_create demo_qdef (mk_queue 2 0);
      do_ poke 256 [170; 187];
      do sent <- osal_queue_send q 256 false;
      do received <- osal_queue_receive q 512 768;
      do got <- peek 512 2;
      ret (sent, received, got)) boot)
  = Some (false, false, [170; 187]).
Proof. vm_compute. reflexivity. Qed.

(** C5: A = 01 02 is sent, then B = 03 04, then two receives follow whose
    uninitialised [objpp] holds 0x1004, the address of B's slot.  All four
    calls return [false]; the first receive yields 00 00 and the second
    04 10, neither A nor B. *)
Theorem fifo_lost_through_objpp :
  returned
    ((do q <- osal_queue_create demo_qdef (mk_queue 2 0);
      do_ poke 256 [1; 2; 3; 4];
      do sent_a <- osal_queue_send q 256 false;
      do sent_b <- osal_queue_send q 258 false;
      do recv_1 <- osal_queue_receive q 512 4100;
      do first <- peek 512 2;
      do recv_2 <- osal_queue_receive q 514 4100;
      do second <- peek 514 2;
      ret (sent_a, sent_b, recv_1, recv_2, first, second)) boot)
  = Some (false, false, false, false, [0; 0], [4; 16]).
Proof. vm_compute. reflexivity. Qed.

(** The same run with [objpp] pointing at unused storage yields A, then B. *)
Example fifo_scratch_objpp :
  returned
    ((do q <- osal_queue_create demo_qdef (mk_queue 2 0);
      do_ poke 256 [1; 2; 3; 4];
      do sent_a <- osal_queue_send q 256 false;
      do sent_b <- osal_queue_send q 258 false;
      do recv_1 <- osal_queue_receive q 512 768;
      do first <- peek 512 2;
      do recv_2 <- osal_queue_receive q 514 768;
      do second <- peek 514 2;
      ret (sent_a, sent_b, recv_1, recv_2, first, second)) boot)
  = Some (false, false, false, false, [1; 2], [3; 4]).
Proof. vm_compute. reflexivity. Qed.

(** The scenario of the specification: depth 4, two-byte objects.  Four
    thread-context sends of 1, 2, 3, 4 succeed, a fifth send from interrupt
    context fails, four receives deliver 1, 2, 3, 4 in order, and a later
    send of 6 succeeds and is received ([objpp] pointing at unused
    storage). *)
Example specification_scenario :
  returned
    ((do q <- osal_queue_create demo_qdef (mk_queue 2 0);
      do_ poke 256 [1; 0; 2; 0; 3; 0; 4; 0; 5; 0; 6; 0];
      do s1 <- osal_queue_send q 256 false;
      do s2 <- osal_queue_send q 258 false;
      do s3 <- osal_queue_send q 260 false;
      do s4 <- osal_queue_send q 262 false;
      do s5 <- osal_queue_send q 264 true;
      do_ osal_queue_receive q 512 768;
      do_ osal_queue_receive q 514 768;
      do_ osal_queue_receive q 516 768;
      do_ osal_queue_receive q 518 768;
      do four <- peek 512 8;
      do s6 <- osal_queue_send q 266 false;
      do_ osal_queue_receive q 520 768;
      do last <- peek 520 2;
      ret ([s1; s2; s3; s4; s5; s6], four, last)) boot)
  = Some ([false; false; false; false; true; false],
          [1; 0; 2; 0; 3; 0; 4; 0], [6; 0]).
Proof. vm_compute. reflexivity. Qed.

(** ** The constructors *)

(** C6: for a descriptor whose semaphore lives at 0x2000, with [m.sem]
    holding 0x3000 and [s.size] holding 0xABCD on entry, the handle returned
    has size 0xABCD, not 1; the semaphore initialised with count 1 is the
    one at 0x3000, and the descriptor's own is left uninitialised.  The
    semaphore constructor at capacity 1 returns size 1 and initialises the
    descriptor's semaphore. *)
Theorem osal_mutex_create_uses_two_locals :
  osal_mutex_create (mk_semdef 7 8192) (mk_sem 0 12288) (mk_sem 43981 0) boot
    = Ret (mk_sem 43981 8192) (set_sem 12288 1 boot)
  /\ k_sems (set_sem 12288 1 boot) !! 8192 = None
  /\ osal_semaphore_create (mk_semdef 1 8192) boot
       = Ret (mk_sem 1 8192) (set_sem 8192 1 boot).
Proof. repeat split. Qed.

(** C9: for the descriptor of four two-byte objects the control block is
    initialised as a pool of four two-byte slots over the object buffer and
    a four-message mailbox over the message buffer, and the handle refers to
    it; the handle's [obj_sz] is what the returned object held before (here
    0), not the descriptor's 2. *)
Theorem osal_queue_create_leaves_obj_sz :
  osal_queue_create demo_qdef (mk_queue 0 0) boot
    = Ret (mk_queue 0 12288)
          (set_fifo 12288 (mk_fifo 2 [4102; 4100; 4098; 4096] 8192 4 [] false) boot)
  /\ qdef_obj_sz demo_qdef = 2.
Proof. split; reflexivity. Qed.

(** ** The theorems at concrete inputs *)

Lemma isr_send_failure_is_atomic_witness :
  k_lock demo_full = false /\
  k_fifos demo_full !! q_fifo demo_queue = Some demo_full_fifo /\
  pool_free demo_full_fifo = [] /\
  osal_queue_send demo_queue 256 true demo_full = Ret true demo_full.
Proof.
  assert (Hl : k_lock demo_full = false) by reflexivity.
  assert (Hf : k_fifos demo_full !! q_fifo demo_queue = Some demo_full_fifo)
    by reflexivity.
  assert (Hfree : pool_free demo_full_fifo = []) by reflexivity.
  split; [exact Hl|]. split; [exact Hf|]. split; [exact Hfree|].
  exact (isr_send_failure_is_atomic demo_queue 256 demo_full demo_full_fifo Hl Hf Hfree).
Defined.

Lemma thread_send_waits_for_slot_witness :
  (k_lock demo_full = false /\
   k_fifos demo_full !! q_fifo demo_queue = Some demo_full_fifo /\
   pool_free demo_full_fifo = [] /\
   Z.of_nat (length (mbx_msgs demo_full_fifo)) <= mbx_size demo_full_fifo /\
   osal_queue_send demo_queue 256 false demo_full = Blocks /\
   osal_queue_send demo_queue 256 true demo_full = Ret true demo_full /\
   exists k1 f1,
     osal_queue_receive demo_queue 512 768 demo_full = Ret false k1 /\
     k_fifos k1 !! q_fifo demo_queue = Some f1 /\
     pool_free f1 = [4102] /\
     mbx_msgs f1 = [4100; 4098; 4096] /\
     osal_queue_send demo_queue 256 false k1 =
       Ret false (sent_state (q_fifo demo_queue) f1 4102 [] 256 (q_obj_sz demo_queue) k1))
  /\ (k_lock demo_fresh = false /\
      k_fifos demo_fresh !! q_fifo demo_queue = Some demo_fresh_fifo /\
      pool_free demo_fresh_fifo = 4102 :: [4100; 4098; 4096] /\
      4102 <> NULL /\
      mbx_reset demo_fresh_fifo = false /\
      mbx_full demo_fresh_fifo = false /\
      osal_queue_send demo_queue 256 false demo_fresh =
        Ret false (sent_state (q_fifo demo_queue) demo_fresh_fifo 4102 [4100; 4098; 4096]
                     256 (q_obj_sz demo_queue) demo_fresh))
  /\ (k_lock demo_reset = false /\
      k_fifos demo_reset !! q_fifo demo_queue = Some demo_reset_fifo /\
      (exists k', osal_queue_send demo_queue 256 false demo_reset = Ret true k') /\
      exists p rest, pool_free demo_reset_fifo = p :: rest /\
                     (p = NULL \/ mbx_reset demo_reset_fifo = true)).
Proof.
  split; [|split].
  - assert (Hl : k_lock demo_full = false) by reflexivity.
    assert (Hf : k_fifos demo_full !! q_fifo demo_queue = Some demo_full_fifo)
      by reflexivity.
    assert (Hfree : pool_free demo_full_fifo = []) by reflexivity.
    assert (Hcap : Z.of_nat (length (mbx_msgs demo_full_fifo)) <= mbx_size demo_full_fifo)
      by (simpl; lia).
    split; [exact Hl|]. split; [exact Hf|]. split; [exact Hfree|]. split; [exact Hcap|].
    destruct (thread_send_waits_for_slot demo_queue 256 demo_full demo_full_fifo Hl Hf)
      as (Hexh & _ & _ & Hafter).
    destruct (Hexh Hfree) as (Hblocks & Hisr).
    split; [exact Hblocks|]. split; [exact Hisr|].
    destruct (osal_queue_receive demo_queue 512 768 demo_full) as [[|] k1| |] eqn:Hr;
      try (vm_compute in Hr; discriminate Hr).
    destruct (Hafter Hfree Hcap 512 768 k1 Hr) as (f1 & obj & Hf1 & Hpool & Hmsgs & Hsend).
    assert (Hk1 : k1 = received_state (q_fifo demo_queue) demo_full_fifo 4102
                         [4100; 4098; 4096] 512 768 (q_obj_sz demo_queue) demo_full)
      by (vm_compute in Hr; injection Hr as <-; reflexivity).
    assert (Hf1' : f1 = mk_fifo 2 [4102] 8192 4 [4100; 4098; 4096] false).
    { rewrite Hk1 in Hf1. vm_compute in Hf1. injection Hf1 as <-. reflexivity. }
    assert (Hobj : obj = 4102).
    { rewrite Hf1' in Hpool. simpl in Hpool. injection Hpool as <-. reflexivity. }
    exists k1, f1. split; [reflexivity|]. split; [exact Hf1|].
    split; [rewrite Hf1'; reflexivity|]. split; [rewrite Hf1'; reflexivity|].
    rewrite Hobj in Hsend. apply Hsend. discriminate.
  - assert (Hl : k_lock demo_fresh = false) by reflexivity.
    assert (Hf : k_fifos demo_fresh !! q_fifo demo_queue = Some demo_fresh_fifo)
      by reflexivity.
    assert (Hfree : pool_free demo_fresh_fifo = 4102 :: [4100; 4098; 4096]) by reflexivity.
    assert (Hp : 4102 <> NULL) by discriminate.
    assert (Hr : mbx_reset demo_fresh_fifo = false) by reflexivity.
    assert (Hfull : mbx_full demo_fresh_fifo = false) by reflexivity.
    split; [exact Hl|]. split; [exact Hf|]. split; [exact Hfree|]. split; [exact Hp|].
    split; [exact Hr|]. split; [exact Hfull|].
    exact (proj1 (proj2 (thread_send_waits_for_slot demo_queue 256 demo_fresh
                           demo_fresh_fifo Hl Hf))
             4102 [4100; 4098; 4096] Hfree Hp Hr Hfull).
  - assert (Hl : k_lock demo_reset = false) by reflexivity.
    assert (Hf : k_fifos demo_reset !! q_fifo demo_queue = Some demo_reset_fifo)
      by reflexivity.
    split; [exact Hl|]. split; [exact Hf|].
    destruct (osal_queue_send demo_queue 256 false demo_reset) as [[|] k'| |] eqn:Hs;
      try (vm_compute in Hs; discriminate Hs).
    split; [exists k'; reflexivity|].
    exact (proj1 (proj2 (proj2 (thread_send_waits_for_slot demo_queue 256 demo_reset
                                  demo_reset_fifo Hl Hf))) k' Hs).
Defined.

Lemma isr_send_fails_iff_exhausted_witness :
  osal_queue_send demo_queue 256 true demo_full <> Blocks
  /\ (k_lock demo_fresh = false /\
   k_fifos demo_fresh !! q_fifo demo_queue = Some demo_fresh_fifo /\
   Forall (fun p => p <> NULL) (pool_free demo_fresh_fifo) /\
   exists b k', osal_queue_send demo_queue 256 true demo_fresh = Ret b k' /\
                (b = true <-> pool_free demo_fresh_fifo = []))
  /\ (k_lock boot = false /\
      osal_queue_create demo_qdef (mk_queue 2 0) boot = Ret demo_queue demo_fresh /\
      length four_sends = Z.to_nat (qdef_depth demo_qdef) /\
      exists k2, sends demo_queue four_sends demo_fresh = Some k2 /\
                 osal_queue_send demo_queue 256 true k2 = Ret true k2).
Proof.
  split; [exact (proj1 isr_send_fails_iff_exhausted demo_queue 256 demo_full)|].
  split.
  - assert (Hl : k_lock demo_fresh = false) by reflexivity.
    assert (Hf : k_fifos demo_fresh !! q_fifo demo_queue = Some demo_fresh_fifo)
      by reflexivity.
    assert (Hnn : Forall (fun p => p <> NULL) (pool_free demo_fresh_fifo))
      by (repeat constructor; discriminate).
    split; [exact Hl|]. split; [exact Hf|]. split; [exact Hnn|].
    exact (proj1 (proj2 isr_send_fails_iff_exhausted) demo_queue 256 demo_fresh
             demo_fresh_fifo Hl Hf Hnn).
  - assert (Hl : k_lock boot = false) by reflexivity.
    assert (Hc : osal_queue_create demo_qdef (mk_queue 2 0) boot = Ret demo_queue demo_fresh)
      by reflexivity.
    assert (Hlen : length four_sends = Z.to_nat (qdef_depth demo_qdef)) by reflexivity.
    split; [exact Hl|]. split; [exact Hc|]. split; [exact Hlen|].
    destruct (sends demo_queue four_sends demo_fresh) as [k2|] eqn:Hs.
    + exists k2. split; [reflexivity|].
      exact (proj2 (proj2 isr_send_fails_iff_exhausted) demo_qdef (mk_queue 2 0) boot
               demo_queue demo_fresh four_sends k2 256 Hl Hc Hlen Hs).
    + vm_compute in Hs. discriminate Hs.
Defined.

(** The round trip and the ordering under a harmless [objpp], on the fresh
    demo queue. *)
Lemma roundtrip_with_valid_scratch_demo :
  exists k1 k2,
    osal_queue_send demo_queue 256 false demo_fresh = Ret false k1 /\
    osal_queue_receive demo_queue 512 768 k1 = Ret false k2 /\
    read_bytes (k_mem k2) 512 2 = read_bytes (k_mem demo_fresh) 256 2.
Proof.
  apply (roundtrip_with_valid_scratch demo_queue 256 false 512 768 demo_fresh
           demo_fresh_fifo 4102 [4100; 4098; 4096]);
    try reflexivity; unfold disjoint, sizeof_ptr; simpl; lia.
Defined.

Lemma fifo_with_valid_scratch_demo :
  exists k1 k2 k3 k4,
    osal_queue_send demo_queue 256 false demo_fresh = Ret false k1 /\
    osal_queue_send demo_queue 258 true k1 = Ret false k2 /\
    osal_queue_receive demo_queue 512 768 k2 = Ret false k3 /\
    osal_queue_receive demo_queue 514 768 k3 = Ret false k4 /\
    read_bytes (k_mem k3) 512 2 = read_bytes (k_mem demo_fresh) 256 2 /\
    read_bytes (k_mem k4) 514 2 = read_bytes (k_mem k1) 258 2.
Proof.
  apply (fifo_with_valid_scratch demo_queue 256 258 false true 512 514 768 768 demo_fresh
           demo_fresh_fifo 4102 4100 [4098; 4096]);
    try reflexivity; unfold disjoint, sizeof_ptr; simpl; lia.
Defined.

(** ** Semaphore: post, wait and reset together *)

Lemma set_sem_same sp c k : k_sems k !! sp = Some c -> set_sem sp c k = k.
Proof.
  destruct k as [l sems fifos mem]; simpl. intros H.
  unfold set_sem; simpl. now rewrite (insert_id _ _ _ H).
Qed.

Lemma set_sem_twice sp a b k : set_sem sp a (set_sem sp b k) = set_sem sp a k.
Proof. unfold set_sem; simpl. now rewrite insert_insert_eq. Qed.

Lemma post_returns sem_hdl in_isr k c :
  k_lock k = false ->
  k_sems k !! hdl_sem sem_hdl = Some c ->
  osal_semaphore_post sem_hdl in_isr k = Ret false (set_sem (hdl_sem sem_hdl) (c + 1) k).
Proof.
  intros Hl Hs. destruct k as [l sems fifos mem]; simpl in *; subst l.
  destruct in_isr;
    unfold osal_semaphore_post, chSysLockFromISR, chSysUnlockFromISR, chSysLock,
      chSysUnlock, chSemSignal, chSemSignalI, bind, ret, thread_class, i_class, the_sem;
    simpl; rewrite Hs; reflexivity.
Qed.

Lemma mutex_lock_as_wait freq hdl msec ev k :
  osal_mutex_lock freq hdl msec ev k = osal_semaphore_wait freq hdl msec ev k.
Proof.
  unfold osal_mutex_lock, osal_semaphore_wait. now rewrite to_sysinterval_uint32.
Qed.

Lemma mutex_unlock_returns hdl k c :
  k_lock k = false ->
  k_sems k !! hdl_sem hdl = Some c ->
  osal_mutex_unlock hdl k = Ret false (set_sem (hdl_sem hdl) (c + 1) k).
Proof.
  intros Hl Hs.
  unfold osal_mutex_unlock, chSemSignal, bind, ret, thread_class, the_sem.
  now rewrite Hl, Hs.
Qed.

Lemma TIME_MS2I_zero freq : TIME_MS2I freq 0 = TIME_IMMEDIATE.
Proof. unfold TIME_MS2I. rewrite Z.mul_0_l. reflexivity. Qed.

Lemma wait_poll freq sem_hdl ev k c :
  k_lock k = false ->
  k_sems k !! hdl_sem sem_hdl = Some c ->
  osal_semaphore_wait freq sem_hdl 0 ev k =
    if 0 <? c then Ret false (set_sem (hdl_sem sem_hdl) (c - 1) k) else Ret true k.
Proof.
  intros Hl Hs.
  unfold osal_semaphore_wait, chSemWaitTimeout, bind, ret, thread_class, the_sem.
  rewrite Hl, Hs. change (0 =? OSAL_TIMEOUT_WAIT_FOREVER) with false. cbv iota.
  rewrite TIME_MS2I_zero. destruct (0 <? c); reflexivity.
Qed.

Lemma waits_serve freq sem_hdl l : forall k c,
  k_lock k = false ->
  k_sems k !! hdl_sem sem_hdl = Some c ->
  length l = Z.to_nat c ->
  0 <= c ->
  waits freq sem_hdl l k = Some (set_sem (hdl_sem sem_hdl) 0 k).
Proof.
  induction l as [|[msec ev] l IH]; intros k c Hl Hs Hlen Hc; simpl in *.
  - assert (c = 0) by lia. subst c. now rewrite (set_sem_same _ _ _ Hs).
  - assert (Hpos : 0 < c) by lia.
    rewrite (semaphore_wait_takes_count freq _ msec ev _ _ Hl Hs Hpos).
    rewrite (IH _ (c - 1)); [now rewrite set_sem_twice|exact Hl| |lia|lia].
    simpl. apply lookup_insert_eq.
Qed.

(** X1: a post returns [false] in both contexts and raises the count of the
    handle's semaphore by exactly one; the interrupt-context path, with its
    lock bracket, leaves the same state as the thread-context path. *)
Theorem semaphore_post_adds_one sem_hdl k c :
  k_lock k = false ->
  k_sems k !! hdl_sem sem_hdl = Some c ->
  osal_semaphore_post sem_hdl false k = Ret false (set_sem (hdl_sem sem_hdl) (c + 1) k)
  /\ osal_semaphore_post sem_hdl true k = osal_semaphore_post sem_hdl false k.
Proof.
  intros Hl Hs. rewrite !(post_returns _ _ _ _ Hl Hs). split; reflexivity.
Qed.

(** X2: on a semaphore whose count is not negative, a post followed by a
    wait returns [false] from the wait, whatever the context of the post,
    the timeout and the rest of the system, and the kernel state is again
    the one before the post. *)
Theorem semaphore_post_then_wait freq sem_hdl in_isr msec ev k c :
  k_lock k = false ->
  k_sems k !! hdl_sem sem_hdl = Some c ->
  0 <= c ->
  (do_ osal_semaphore_post sem_hdl in_isr; osal_semaphore_wait freq sem_hdl msec ev) k
    = Ret false k.
Proof.
  intros Hl Hs Hc. unfold bind at 1. rewrite (post_returns _ _ _ _ Hl Hs).
  rewrite (semaphore_wait_takes_count freq _ msec ev _ (c + 1));
    [|exact Hl|apply lookup_insert_eq|lia].
  rewrite set_sem_twice. replace (c + 1 - 1) with c by lia.
  now rewrite (set_sem_same _ _ _ Hs).
Qed.

(** X3: a semaphore created from a descriptor of size n serves exactly n
    waits: any n waits in a row return [false] and leave the count at 0;
    then a poll (timeout 0) returns [true] and a wait with the sentinel in a
    quiet system stays blocked. *)
Theorem semaphore_created_serves_size freq semdef l k :
  k_lock k = false ->
  0 <= def_size semdef ->
  length l = Z.to_nat (def_size semdef) ->
  exists hdl k1 k2,
    osal_semaphore_create semdef k = Ret hdl k1 /\
    waits freq hdl l k1 = Some k2 /\
    k_sems k2 !! def_sem semdef = Some 0 /\
    (forall ev, osal_semaphore_wait freq hdl 0 ev k2 = Ret true k2) /\
    osal_semaphore_wait freq hdl OSAL_TIMEOUT_WAIT_FOREVER Quiet k2 = Blocks.
Proof.
  intros Hl Hn Hlen.
  rewrite semaphore_create_returns.
  set (hdl := mk_sem _ _). set (k1 := set_sem _ _ k).
  assert (Hs1 : k_sems k1 !! hdl_sem hdl = Some (def_size semdef))
    by apply lookup_insert_eq.
  exists hdl, k1, (set_sem (hdl_sem hdl) 0 k1).
  assert (Hs2 : k_sems (set_sem (hdl_sem hdl) 0 k1) !! hdl_sem hdl = Some 0)
    by apply lookup_insert_eq.
  split; [reflexivity|].
  split; [exact (waits_serve freq hdl l k1 _ Hl Hs1 Hlen Hn)|].
  split; [exact Hs2|].
  split.
  - intros ev. now rewrite (wait_poll freq hdl ev (set_sem (hdl_sem hdl) 0 k1) 0 Hl Hs2).
  - now rewrite (semaphore_wait_forever freq hdl Quiet (set_sem (hdl_sem hdl) 0 k1) 0 Hl Hs2).
Qed.

(** X4: a reset sets the count to the handle's size whatever it was before
    (also when it was negative or above the size), so that afterwards the
    semaphore again serves exactly that many waits. *)
Theorem semaphore_reset_restores_size freq sem_hdl l k c :
  k_lock k = false ->
  k_sems k !! hdl_sem sem_hdl = Some c ->
  0 <= hdl_size sem_hdl ->
  length l = Z.to_nat (hdl_size sem_hdl) ->
  exists k1,
    osal_semaphore_reset sem_hdl k = Ret tt k1 /\
    k_sems k1 !! hdl_sem sem_hdl = Some (hdl_size sem_hdl) /\
    waits freq sem_hdl l k1 = Some (set_sem (hdl_sem sem_hdl) 0 k).
Proof.
  intros Hl Hs Hn Hlen.
  exists (set_sem (hdl_sem sem_hdl) (hdl_size sem_hdl) k).
  assert (Hs1 : k_sems (set_sem (hdl_sem sem_hdl) (hdl_size sem_hdl) k) !! hdl_sem sem_hdl
                = Some (hdl_size sem_hdl)) by apply lookup_insert_eq.
  split.
  - unfold osal_semaphore_reset, chSemReset, bind, thread_class, the_sem. now rewrite Hl, Hs.
  - split; [exact Hs1|].
    rewrite (waits_serve freq sem_hdl l (set_sem (hdl_sem sem_hdl) (hdl_size sem_hdl) k)
               _ Hl Hs1 Hlen Hn).
    now rewrite set_sem_twice.
Qed.

(** X5: with timeout 0 a wait on a semaphore, and a lock of a mutex, is a
    poll: it never blocks, whatever the rest of the system does; it takes a
    positive count and returns [false], and otherwise returns [true] and
    changes nothing. *)
Theorem wait_with_zero_timeout_polls freq hdl ev k c :
  k_lock k = false ->
  k_sems k !! hdl_sem hdl = Some c ->
  osal_semaphore_wait freq hdl 0 ev k =
    (if 0 <? c then Ret false (set_sem (hdl_sem hdl) (c - 1) k) else Ret true k)
  /\ osal_mutex_lock freq hdl 0 ev k =
    (if 0 <? c then Ret false (set_sem (hdl_sem hdl) (c - 1) k) else Ret true k).
Proof.
  intros Hl Hs. rewrite mutex_lock_as_wait.
  split; exact (wait_poll freq hdl ev k c Hl Hs).
Qed.

Lemma TIME_MS2I_below freq msec :
  0 < freq <= 1000 ->
  0 <= msec < 2 ^ 32 - 1 ->
  0 <= TIME_MS2I freq msec < 2 ^ 32 - 1.
Proof.
  intros Hf Hm. unfold TIME_MS2I, to_sysinterval.
  assert (H0 : 0 <= (msec * freq + 999) / 1000) by (apply Z.div_pos; nia).
  assert (H1 : (msec * freq + 999) / 1000 <= msec).
  { apply Z.lt_succ_r. apply Z.div_lt_upper_bound; nia. }
  rewrite Z.mod_small by lia. lia.
Qed.

(** X6: with a tick frequency of at most 1 kHz, a wait or a lock whose
    timeout is not the sentinel never stays blocked: it returns whatever
    the count is and whatever the rest of the system does.  Only the
    sentinel makes the kernel wait without limit. *)
Theorem finite_timeout_never_blocks freq hdl msec ev k :
  0 < freq <= 1000 ->
  0 <= msec < 2 ^ 32 - 1 ->
  osal_semaphore_wait freq hdl msec ev k <> Blocks
  /\ osal_mutex_lock freq hdl msec ev k <> Blocks.
Proof.
  intros Hf Hm. rewrite mutex_lock_as_wait.
  assert (H : osal_semaphore_wait freq hdl msec ev k <> Blocks); [|split; exact H].
  pose proof (TIME_MS2I_below freq msec Hf Hm) as Ht.
  unfold osal_semaphore_wait, chSemWaitTimeout, bind, ret, thread_class, the_sem.
  assert (Hs : (msec =? OSAL_TIMEOUT_WAIT_FOREVER) = false)
    by (apply Z.eqb_neq; unfold OSAL_TIMEOUT_WAIT_FOREVER; lia).
  rewrite Hs, TIME_MS2I_interval.
  assert (Hi : (TIME_MS2I freq msec =? TIME_INFINITE) = false)
    by (apply Z.eqb_neq; rewrite TIME_INFINITE_val; lia).
  rewrite Hi.
  destruct (k_lock k); [discriminate|].
  destruct (k_sems k !! hdl_sem hdl) as [c|]; [|discriminate].
  destruct (0 <? c); [discriminate|].
  destruct (TIME_MS2I freq msec =? TIME_IMMEDIATE); [discriminate|].
  destruct ev; discriminate.
Qed.

(** ** Mutex: lock and unlock together *)

(** X7: on a free mutex (count 1) a lock returns [false] and takes the
    count; while it is held, a poll returns [true] and changes nothing and a
    lock with the sentinel stays blocked in a quiet system; an unlock
    returns [false] and brings back the state before the lock. *)
Theorem mutex_excludes_second_holder freq hdl msec ev ev' k :
  k_lock k = false ->
  k_sems k !! hdl_sem hdl = Some 1 ->
  exists k1,
    osal_mutex_lock freq hdl msec ev k = Ret false k1 /\
    k_sems k1 !! hdl_sem hdl = Some 0 /\
    osal_mutex_lock freq hdl 0 ev' k1 = Ret true k1 /\
    osal_mutex_lock freq hdl OSAL_TIMEOUT_WAIT_FOREVER Quiet k1 = Blocks /\
    osal_mutex_unlock hdl k1 = Ret false k.
Proof.
  intros Hl Hs.
  exists (set_sem (hdl_sem hdl) 0 k).
  assert (Hs1 : k_sems (set_sem (hdl_sem hdl) 0 k) !! hdl_sem hdl = Some 0)
    by apply lookup_insert_eq.
  rewrite !mutex_lock_as_wait.
  split; [exact (semaphore_wait_takes_count freq hdl msec ev k 1 Hl Hs ltac:(lia))|].
  split; [exact Hs1|].
  split; [exact (wait_poll freq hdl ev' (set_sem (hdl_sem hdl) 0 k) 0 Hl Hs1)|].
  split; [exact (semaphore_wait_forever freq hdl Quiet (set_sem (hdl_sem hdl) 0 k) 0
                   Hl Hs1 ltac:(lia))|].
  rewrite (mutex_unlock_returns hdl (set_sem (hdl_sem hdl) 0 k) 0 Hl Hs1).
  rewrite set_sem_twice. change (0 + 1) with 1. now rewrite (set_sem_same _ _ _ Hs).
Qed.

(** X8: an unlock is not capped at one: unlocking a mutex that is already
    free raises its count to 2, after which two locks in a row both return
    [false], so two holders are inside at once. *)
Theorem mutex_unlock_is_not_capped freq hdl msec1 ev1 msec2 ev2 k :
  k_lock k = false ->
  k_sems k !! hdl_sem hdl = Some 1 ->
  exists k1 k2 k3,
    osal_mutex_unlock hdl k = Ret false k1 /\
    k_sems k1 !! hdl_sem hdl = Some 2 /\
    osal_mutex_lock freq hdl msec1 ev1 k1 = Ret false k2 /\
    osal_mutex_lock freq hdl msec2 ev2 k2 = Ret false k3 /\
    k_sems k3 !! hdl_sem hdl = Some 0.
Proof.
  intros Hl Hs.
  set (k1 := set_sem (hdl_sem hdl) 2 k).
  set (k2 := set_sem (hdl_sem hdl) 1 k1).
  set (k3 := set_sem (hdl_sem hdl) 0 k2).
  assert (Hs1 : k_sems k1 !! hdl_sem hdl = Some 2) by apply lookup_insert_eq.
  assert (Hs2 : k_sems k2 !! hdl_sem hdl = Some 1) by apply lookup_insert_eq.
  exists k1, k2, k3. rewrite !mutex_lock_as_wait.
  split; [exact (mutex_unlock_returns hdl k 1 Hl Hs)|].
  split; [exact Hs1|].
  split; [exact (semaphore_wait_takes_count freq hdl msec1 ev1 k1 2 Hl Hs1 ltac:(lia))|].
  split; [exact (semaphore_wait_takes_count freq hdl msec2 ev2 k2 1 Hl Hs2 ltac:(lia))|].
  apply lookup_insert_eq.
Qed.

(** ** Queue: the edges of receive and send *)

(** X9: what a receive does on an initialised queue.  With the mailbox in
    reset state it returns [true] and changes nothing: no byte of the output
    buffer is written and no pointer is stored through [objpp].  With an
    empty mailbox it stays blocked.  Otherwise it returns [false], having
    fetched the oldest message. *)
Theorem receive_outcomes qhdl out objpp0 k f :
  k_lock k = false ->
  k_fifos k !! q_fifo qhdl = Some f ->
  osal_queue_receive qhdl out objpp0 k =
    if mbx_reset f then Ret true k
    else match mbx_msgs f with
         | [] => Blocks
         | m :: rest =>
             Ret false (received_state (q_fifo qhdl) f m rest out objpp0 (q_obj_sz qhdl) k)
         end.
Proof.
  intros Hl Hf.
  destruct (mbx_reset f) eqn:Hr.
  - unfold_calls; simpl. now rewrite Hl, Hf, Hr.
  - destruct (mbx_msgs f) as [|m rest] eqn:Hm.
    + unfold_calls; simpl. now rewrite Hl, Hf, Hr, Hm.
    + exact (receive_returns qhdl out objpp0 k f m rest Hl Hf Hr Hm).
Qed.

(** X10: a thread-context send whose post fails (the mailbox is in reset
    state) returns [true] after it has taken a slot and copied the payload
    into it: the slot is neither posted nor given back, so the pool is one
    slot short and the ready objects are as before. *)
Theorem thread_send_failed_post_keeps_slot qhdl data k f p rest :
  k_lock k = false ->
  k_fifos k !! q_fifo qhdl = Some f ->
  pool_free f = p :: rest ->
  p <> NULL ->
  mbx_reset f = true ->
  exists k',
    osal_queue_send qhdl data false k = Ret true k' /\
    k' = taken_state (q_fifo qhdl) f p rest data (q_obj_sz qhdl) k /\
    free_slots qhdl k' = Some rest /\
    ready_objects qhdl k' = Some (mbx_msgs f).
Proof.
  intros Hl Hf Hfree Hp Hr. apply Z.eqb_neq in Hp.
  eexists. split; [|split; [reflexivity|]].
  - destruct k as [l sems fifos mem]; simpl in *; subst l.
    unfold_calls; simpl. rewrite Hf, Hfree; simpl. rewrite Hp; simpl.
    rewrite lookup_insert_eq; simpl. rewrite Hr; simpl.
    unfold taken_state, set_fifo; simpl. reflexivity.
  - unfold free_slots, ready_objects, taken_state; simpl.
    rewrite lookup_insert_eq; simpl. split; reflexivity.
Qed.

(** X11: an interrupt-context send that got a slot returns [false] whatever
    becomes of the post: when the mailbox has room the slot is the newest
    ready object, and when the mailbox is full or in reset state nothing is
    enqueued, the slot stays out of the pool, and [false] is returned all
    the same. *)
Theorem isr_send_reports_success_with_slot qhdl data k f p rest :
  k_lock k = false ->
  k_fifos k !! q_fifo qhdl = Some f ->
  pool_free f = p :: rest ->
  p <> NULL ->
  osal_queue_send qhdl data true k =
    Ret false
      (if mbx_reset f || mbx_full f
       then taken_state (q_fifo qhdl) f p rest data (q_obj_sz qhdl) k
       else sent_state (q_fifo qhdl) f p rest data (q_obj_sz qhdl) k).
Proof.
  intros Hl Hf Hfree Hp.
  destruct (mbx_reset f || mbx_full f) eqn:Hdrop.
  - apply Z.eqb_neq in Hp.
    destruct k as [l sems fifos mem]; simpl in *; subst l.
    unfold_calls; simpl. rewrite Hf, Hfree; simpl. rewrite Hp; simpl.
    rewrite lookup_insert_eq; simpl.
    change (mbx_full (set_free rest f)) with (mbx_full f). rewrite Hdrop; simpl.
    unfold taken_state, set_fifo; simpl. reflexivity.
  - apply orb_false_iff in Hdrop as [Hr Hfull].
    exact (send_returns qhdl data true k f p rest Hl Hf Hfree Hp Hr Hfull).
Qed.

(** ** Queue: filling a created queue *)

Lemma chPoolLoadArray_positive n : forall free p sz,
  Forall (fun q => 0 < q) free -> 0 < p -> 0 <= sz ->
  Forall (fun q => 0 < q) (chPoolLoadArray free p sz n).
Proof.
  induction n as [|n IH]; intros free p sz Hfree Hp Hsz; simpl; [exact Hfree|].
  apply IH; [constructor; assumption|lia|exact Hsz].
Qed.

Lemma sends_succeed qhdl l : forall k f,
  k_lock k = false ->
  k_fifos k !! q_fifo qhdl = Some f ->
  mbx_reset f = false ->
  Forall (fun q => 0 < q) (pool_free f) ->
  (length l <= length (pool_free f))%nat ->
  Z.of_nat (length (mbx_msgs f) + length (pool_free f)) <= mbx_size f ->
  exists k',
    sends qhdl l k = Some k' /\
    k_lock k' = false /\
    k_fifos k' !! q_fifo qhdl =
      Some (mk_fifo (pool_objsize f) (drop (length l) (pool_free f)) (mbx_buffer f)
                    (mbx_size f) (mbx_msgs f ++ take (length l) (pool_free f)) false).
Proof.
  induction l as [|[data isr] l IH]; intros k f Hl Hf Hr Hpos Hlen Hcap.
  - exists k. split; [reflexivity|]. split; [exact Hl|].
    rewrite Hf. f_equal. destruct f; simpl in *. subst. now rewrite app_nil_r.
  - destruct (pool_free f) as [|p rest] eqn:Hfree; [simpl in Hlen; lia|].
    assert (Hp : p <> NULL) by (inversion Hpos; unfold NULL; lia).
    assert (Hfull : mbx_full f = false).
    { unfold mbx_full. apply Z.leb_gt. simpl in Hcap. lia. }
    simpl sends.
    rewrite (send_returns qhdl data isr k f p rest Hl Hf Hfree Hp Hr Hfull).
    set (k1 := sent_state _ _ _ _ _ _ _).
    set (f1 := mk_fifo (pool_objsize f) rest (mbx_buffer f) (mbx_size f)
                       (mbx_msgs f ++ [p]) (mbx_reset f)).
    assert (Hf1 : k_fifos k1 !! q_fifo qhdl = Some f1) by apply lookup_insert_eq.
    destruct (IH k1 f1 Hl Hf1 Hr) as (k' & Hs & Hl' & Hf').
    + inversion Hpos; assumption.
    + simpl in *. lia.
    + simpl. rewrite length_app. simpl in *. lia.
    + exists k'. split; [exact Hs|]. split; [exact Hl'|].
      rewrite Hf'. simpl. now rewrite <- app_assoc.
Qed.

(** X12: a queue created with depth D over a non-null object buffer accepts
    D sends in a row, from either context: every run of at most D sends
    succeeds throughout, the ready objects are the slots in the order the
    pool handed them out, one per send in sending order, and the rest of the
    slots are still free.  After exactly D sends a thread-context send
    blocks. *)
Theorem created_queue_accepts_depth_sends qdef r0 k l :
  let slots :=
    chPoolLoadArray [] (qdef_objbuf qdef) (qdef_obj_sz qdef) (Z.to_nat (qdef_depth qdef)) in
  k_lock k = false ->
  0 <= qdef_depth qdef ->
  0 < qdef_objbuf qdef ->
  0 <= qdef_obj_sz qdef ->
  (length l <= Z.to_nat (qdef_depth qdef))%nat ->
  exists qhdl k1 k2,
    osal_queue_create qdef r0 k = Ret qhdl k1 /\
    sends qhdl l k1 = Some k2 /\
    ready_objects qhdl k2 = Some (take (length l) slots) /\
    free_slots qhdl k2 = Some (drop (length l) slots) /\
    (length l = Z.to_nat (qdef_depth qdef) ->
     forall data, osal_queue_send qhdl data false k2 = Blocks).
Proof.
  intros slots Hl Hd Hbuf Hsz Hlen.
  pose (qhdl := mk_queue (q_obj_sz r0) (qdef_fifo qdef)).
  pose (f0 := mk_fifo (qdef_obj_sz qdef) slots (qdef_msgbuf qdef) (qdef_depth qdef) [] false).
  pose (k1 := set_fifo (qdef_fifo qdef) f0 k).
  assert (Hf0 : k_fifos k1 !! q_fifo qhdl = Some f0) by apply lookup_insert_eq.
  assert (Hslots : length slots = Z.to_nat (qdef_depth qdef))
    by (unfold slots; rewrite length_chPoolLoadArray; simpl; lia).
  destruct (sends_succeed qhdl l k1 f0 Hl Hf0 eq_refl) as (k2 & Hs & Hl2 & Hf2).
  - unfold f0, slots; simpl. apply chPoolLoadArray_positive; [constructor|exact Hbuf|exact Hsz].
  - simpl. rewrite Hslots. exact Hlen.
  - simpl. rewrite Hslots. lia.
  - exists qhdl, k1, k2. split; [reflexivity|]. split; [exact Hs|].
    split; [unfold ready_objects; rewrite Hf2; reflexivity|].
    split; [unfold free_slots; rewrite Hf2; reflexivity|].
    intros Hfull data.
    apply (thread_send_exhausted qhdl data k2 _ Hl2 Hf2). simpl.
    apply drop_ge. lia.
Qed.

(** ** Queue: what a send keeps *)

Lemma mbx_has_room f :
  mbx_full f = false -> Z.of_nat (length (mbx_msgs f)) < mbx_size f.
Proof. unfold mbx_full. intros H. apply Z.leb_gt in H. exact H. Qed.

(** X13: whatever a send returns, it leaves the lock bracket closed and the
    semaphores alone, and on the queue it never drops or reorders a ready
    object (the ready objects before are a prefix of those after, with at
    most one more at the end), never adds a slot to the pool, never changes
    the capacity, the object size or the reset state, and keeps the mailbox
    within its capacity. *)
Theorem send_keeps_ready_objects qhdl data in_isr k f b k' :
  k_fifos k !! q_fifo qhdl = Some f ->
  osal_queue_send qhdl data in_isr k = Ret b k' ->
  k_lock k' = false /\ k_sems k' = k_sems k /\
  exists f',
    k_fifos k' !! q_fifo qhdl = Some f' /\
    mbx_msgs f `prefix_of` mbx_msgs f' /\
    (length (mbx_msgs f') <= S (length (mbx_msgs f)))%nat /\
    pool_free f' `suffix_of` pool_free f /\
    mbx_size f' = mbx_size f /\
    pool_objsize f' = pool_objsize f /\
    mbx_reset f' = mbx_reset f /\
    (Z.of_nat (length (mbx_msgs f)) <= mbx_size f ->
     Z.of_nat (length (mbx_msgs f')) <= mbx_size f').
Proof.
  intros Hf.
  destruct k as [l sems fifos mem]; simpl in Hf.
  destruct in_isr; unfold_calls; simpl;
    (destruct l; simpl; [discriminate|]);
    rewrite Hf; simpl;
    destruct (pool_free f) as [|p rest] eqn:Hfree; simpl; try discriminate.
  - send_case f.
  - destruct (p =? NULL); simpl.
    + send_case (set_free rest f).
    + rewrite lookup_insert_eq; simpl.
      destruct (mbx_reset f) eqn:Hr; simpl.
      * send_case (set_free rest f).
      * change (mbx_full (set_free rest f)) with (mbx_full f).
        destruct (mbx_full f) eqn:Hfull; simpl.
        -- send_case (set_free rest f).
        -- pose proof (mbx_has_room f Hfull).
           send_case (set_msgs (mbx_msgs f ++ [p]) (set_free rest f)).
  - destruct (p =? NULL); simpl.
    + send_case (set_free rest f).
    + rewrite lookup_insert_eq; simpl.
      destruct (mbx_reset f) eqn:Hr; simpl.
      * send_case (set_free rest f).
      * change (mbx_full (set_free rest f)) with (mbx_full f).
        destruct (mbx_full f) eqn:Hfull; simpl; [discriminate|].
        pose proof (mbx_has_room f Hfull).
        send_case (set_msgs (mbx_msgs f ++ [p]) (set_free rest f)).
Qed.


(** X15: when [objpp] points at four bytes away from the output buffer, a
    send into an empty queue followed by a receive puts the queue's control
    block back exactly as it was: the slot is at the head of the pool again,
    the mailbox is empty, and semaphores and lock state are untouched. *)
Theorem send_receive_restores_queue qhdl data in_isr out objpp0 k f p rest :
  k_lock k = false ->
  k_fifos k !! q_fifo qhdl = Some f ->
  pool_free f = p :: rest ->
  mbx_msgs f = [] ->
  mbx_reset f = false ->
  0 < mbx_size f ->
  0 < p < 2 ^ 32 ->
  disjoint objpp0 sizeof_ptr out (Z.of_nat (Z.to_nat (q_obj_sz qhdl))) ->
  exists k1 k2,
    osal_queue_send qhdl data in_isr k = Ret false k1 /\
    osal_queue_receive qhdl out objpp0 k1 = Ret false k2 /\
    k_fifos k2 = k_fifos k /\ k_sems k2 = k_sems k /\ k_lock k2 = false.
Proof.
  intros Hl Hf Hfree Hm Hr Hsz Hp Hdis.
  assert (Hfull : mbx_full f = false)
    by (unfold mbx_full; rewrite Hm; simpl; apply Z.leb_gt; lia).
  assert (Hnn : p <> NULL) by (unfold NULL; lia).
  pose proof (send_returns qhdl data in_isr k f p rest Hl Hf Hfree Hnn Hr Hfull) as H1.
  set (k1 := sent_state _ _ _ _ _ _ _) in H1.
  set (f1 := mk_fifo (pool_objsize f) rest (mbx_buffer f) (mbx_size f)
                     (mbx_msgs f ++ [p]) (mbx_reset f)).
  assert (Hf1 : k_fifos k1 !! q_fifo qhdl = Some f1) by apply lookup_insert_eq.
  assert (Hm1 : mbx_msgs f1 = [p]) by (simpl; now rewrite Hm).
  pose proof (receive_returns qhdl out objpp0 k1 f1 p [] Hl Hf1 Hr Hm1) as H2.
  set (k2 := received_state _ _ _ _ _ _ _ _) in H2.
  exists k1, k2. split; [exact H1|]. split; [exact H2|].
  split; [|split; [reflexivity|exact Hl]].
  unfold k2, received_state; simpl.
  rewrite load_ptr_write_bytes_disjoint
    by (rewrite length_read_bytes; unfold disjoint in Hdis; exact Hdis).
  rewrite load_store_ptr by lia.
  rewrite insert_insert_eq.
  apply insert_id. rewrite Hf. f_equal.
  destruct f; simpl in *. now subst.
Qed.

(** X16: on an initialised queue whose mailbox is within its capacity,
    [osal_queue_empty] returns [true] exactly when the mailbox holds as many
    ready objects as its capacity, and [false] otherwise, in particular when
    it holds none and the capacity is positive; the kernel state, lock
    bracket included, is as before. *)
Theorem osal_queue_empty_answers_full qhdl k f :
  k_lock k = false ->
  k_fifos k !! q_fifo qhdl = Some f ->
  Z.of_nat (length (mbx_msgs f)) <= mbx_size f < 2 ^ 16 ->
  osal_queue_empty qhdl k = Ret (Z.of_nat (length (mbx_msgs f)) =? mbx_size f) k.
Proof.
  intros Hl Hf Hcap. rewrite (queue_empty_returns _ _ _ Hl Hf).
  unfold to_uint16. rewrite Z.mod_small by lia. f_equal.
  destruct (Z.eqb_spec (Z.of_nat (length (mbx_msgs f))) (mbx_size f)) as [E|E].
  - apply Z.eqb_eq. lia.
  - apply Z.eqb_neq. lia.
Qed.

Lemma read_bytes_app m a i j :
  read_bytes m a (i + j) = read_bytes m a i ++ read_bytes m (a + Z.of_nat i) j.
Proof.
  revert a; induction i as [|i IH]; intros a.
  - simpl. now rewrite Z.add_0_r.
  - simpl read_bytes at 1 2. rewrite IH. simpl. f_equal. f_equal. f_equal. lia.
Qed.

Lemma read_write_bytes_inside m a l i j :
  (i + j <= length l)%nat ->
  read_bytes (write_bytes m a l) (a + Z.of_nat i) j = take j (drop i l).
Proof.
  intros Hlen.
  pose proof (read_write_bytes_same m a l) as Hall.
  replace (length l) with (i + (j + (length l - i - j)))%nat in Hall by lia.
  rewrite !read_bytes_app in Hall.
  set (r1 := read_bytes _ a i) in Hall.
  set (r2 := read_bytes _ (a + Z.of_nat i) j) in *.
  set (r3 := read_bytes _ _ (length l - i - j)) in Hall.
  rewrite <- Hall.
  rewrite drop_app_length' by (unfold r1; now rewrite length_read_bytes).
  rewrite take_app_length' by (unfold r2; now rewrite length_read_bytes).
  reflexivity.
Qed.

Lemma read_bytes_tail m a i j :
  read_bytes m (a + Z.of_nat i) j = take j (drop i (read_bytes m a (i + j))).
Proof.
  rewrite read_bytes_app.
  rewrite drop_app_length' by now rewrite length_read_bytes.
  rewrite take_ge by (rewrite length_read_bytes; lia).
  reflexivity.
Qed.

(** X20: with a handle whose [obj_sz] exceeds the spacing [s] of the pool's
    slots, a send overwrites the object queued before it.  The pool hands
    out the upper of two neighbouring slots first; after A is sent into it
    and B into the slot below, both are ready, and the bytes at the start of
    A's slot are no longer A's: they are the bytes of B's payload from
    offset [s] on. *)
Theorem oversize_send_overwrites_queued_object
    qhdl dataA dataB isrA isrB k f pA pB rest (s : nat) :
  let n := Z.to_nat (q_obj_sz qhdl) in
  k_lock k = false ->
  k_fifos k !! q_fifo qhdl = Some f ->
  pool_free f = pA :: pB :: rest ->
  mbx_msgs f = [] ->
  mbx_reset f = false ->
  1 < mbx_size f ->
  0 < pB ->
  pA = pB + Z.of_nat s ->
  (s < n)%nat ->
  exists k1 k2,
    osal_queue_send qhdl dataA isrA k = Ret false k1 /\
    osal_queue_send qhdl dataB isrB k1 = Ret false k2 /\
    ready_objects qhdl k2 = Some [pA; pB] /\
    read_bytes (k_mem k1) pA n = read_bytes (k_mem k) dataA n /\
    read_bytes (k_mem k2) pA (n - s) = read_bytes (k_mem k1) (dataB + Z.of_nat s) (n - s).
Proof.
  intros n Hl Hf Hfree Hm Hr Hsz HpB HpA Hs.
  assert (Hfull : mbx_full f = false)
    by (unfold mbx_full; rewrite Hm; simpl; apply Z.leb_gt; lia).
  assert (HnA : pA <> NULL) by (unfold NULL; lia).
  assert (HnB : pB <> NULL) by (unfold NULL; lia).
  pose proof (send_returns qhdl dataA isrA k f pA (pB :: rest) Hl Hf Hfree HnA Hr Hfull) as H1.
  set (k1 := sent_state _ _ _ _ _ _ _) in H1.
  set (f1 := mk_fifo (pool_objsize f) (pB :: rest) (mbx_buffer f) (mbx_size f)
                     (mbx_msgs f ++ [pA]) (mbx_reset f)).
  assert (Hf1 : k_fifos k1 !! q_fifo qhdl = Some f1) by apply lookup_insert_eq.
  assert (Hfull1 : mbx_full f1 = false)
    by (unfold mbx_full; simpl; rewrite Hm; simpl; apply Z.leb_gt; lia).
  pose proof (send_returns qhdl dataB isrB k1 f1 pB rest Hl Hf1 eq_refl HnB Hr Hfull1) as H2.
  set (k2 := sent_state _ _ _ _ _ _ _) in H2.
  exists k1, k2. split; [exact H1|]. split; [exact H2|].
  split.
  { unfold ready_objects, k2, sent_state; simpl.
    rewrite lookup_insert_eq; simpl. now rewrite Hm. }
  split.
  { unfold k1, sent_state; simpl. fold n.
    apply read_write_bytes_same_len, length_read_bytes. }
  unfold k2, sent_state at 1; simpl. fold n.
  rewrite HpA.
  rewrite read_write_bytes_inside by (rewrite length_read_bytes; lia).
  rewrite read_bytes_tail.
  replace (s + (n - s))%nat with n by lia.
  reflexivity.
Qed.

(** ** The further properties at concrete inputs *)

Lemma semaphore_post_adds_one_witness :
  k_lock (demo_sem_at 0) = false /\
  k_sems (demo_sem_at 0) !! hdl_sem demo_sem = Some 0 /\
  osal_semaphore_post demo_sem false (demo_sem_at 0)
    = Ret false (set_sem (hdl_sem demo_sem) (0 + 1) (demo_sem_at 0)) /\
  osal_semaphore_post demo_sem true (demo_sem_at 0)
    = osal_semaphore_post demo_sem false (demo_sem_at 0).
Proof.
  assert (Hl : k_lock (demo_sem_at 0) = false) by reflexivity.
  assert (Hs : k_sems (demo_sem_at 0) !! hdl_sem demo_sem = Some 0) by reflexivity.
  split; [exact Hl|]. split; [exact Hs|].
  exact (semaphore_post_adds_one demo_sem (demo_sem_at 0) 0 Hl Hs).
Defined.

Lemma semaphore_post_then_wait_witness :
  k_lock (demo_sem_at 0) = false /\
  k_sems (demo_sem_at 0) !! hdl_sem demo_sem = Some 0 /\
  0 <= 0 /\
  (do_ osal_semaphore_post demo_sem true; osal_semaphore_wait 1000 demo_sem 10 Quiet)
    (demo_sem_at 0) = Ret false (demo_sem_at 0).
Proof.
  assert (Hl : k_lock (demo_sem_at 0) = false) by reflexivity.
  assert (Hs : k_sems (demo_sem_at 0) !! hdl_sem demo_sem = Some 0) by reflexivity.
  assert (Hc : 0 <= 0) by lia.
  split; [exact Hl|]. split; [exact Hs|]. split; [exact Hc|].
  exact (semaphore_post_then_wait 1000 demo_sem true 10 Quiet (demo_sem_at 0) 0 Hl Hs Hc).
Defined.

Lemma semaphore_created_serves_size_witness :
  k_lock boot = false /\
  0 <= def_size (mk_semdef 2 8192) /\
  length [(10, Quiet); (0, Signalled)] = Z.to_nat (def_size (mk_semdef 2 8192)) /\
  exists hdl k1 k2,
    osal_semaphore_create (mk_semdef 2 8192) boot = Ret hdl k1 /\
    waits 1000 hdl [(10, Quiet); (0, Signalled)] k1 = Some k2 /\
    k_sems k2 !! def_sem (mk_semdef 2 8192) = Some 0 /\
    (forall ev, osal_semaphore_wait 1000 hdl 0 ev k2 = Ret true k2) /\
    osal_semaphore_wait 1000 hdl OSAL_TIMEOUT_WAIT_FOREVER Quiet k2 = Blocks.
Proof.
  assert (Hl : k_lock boot = false) by reflexivity.
  assert (Hn : 0 <= def_size (mk_semdef 2 8192)) by (simpl; lia).
  assert (Hlen : length [(10, Quiet); (0, Signalled)]
                 = Z.to_nat (def_size (mk_semdef 2 8192))) by reflexivity.
  split; [exact Hl|]. split; [exact Hn|]. split; [exact Hlen|].
  exact (semaphore_created_serves_size 1000 (mk_semdef 2 8192)
           [(10, Quiet); (0, Signalled)] boot Hl Hn Hlen).
Defined.

Lemma semaphore_reset_restores_size_witness :
  k_lock (demo_sem_at 5) = false /\
  k_sems (demo_sem_at 5) !! hdl_sem demo_sem = Some 5 /\
  0 <= hdl_size demo_sem /\
  length [(10, Quiet); (0, Signalled)] = Z.to_nat (hdl_size demo_sem) /\
  exists k1,
    osal_semaphore_reset demo_sem (demo_sem_at 5) = Ret tt k1 /\
    k_sems k1 !! hdl_sem demo_sem = Some (hdl_size demo_sem) /\
    waits 1000 demo_sem [(10, Quiet); (0, Signalled)] k1
      = Some (set_sem (hdl_sem demo_sem) 0 (demo_sem_at 5)).
Proof.
  assert (Hl : k_lock (demo_sem_at 5) = false) by reflexivity.
  assert (Hs : k_sems (demo_sem_at 5) !! hdl_sem demo_sem = Some 5) by reflexivity.
  assert (Hn : 0 <= hdl_size demo_sem) by (simpl; lia).
  assert (Hlen : length [(10, Quiet); (0, Signalled)] = Z.to_nat (hdl_size demo_sem))
    by reflexivity.
  split; [exact Hl|]. split; [exact Hs|]. split; [exact Hn|]. split; [exact Hlen|].
  exact (semaphore_reset_restores_size 1000 demo_sem [(10, Quiet); (0, Signalled)]
           (demo_sem_at 5) 5 Hl Hs Hn Hlen).
Defined.

Lemma wait_with_zero_timeout_polls_witness :
  k_lock (demo_sem_at 0) = false /\
  k_sems (demo_sem_at 0) !! hdl_sem demo_sem = Some 0 /\
  osal_semaphore_wait 1000 demo_sem 0 Signalled (demo_sem_at 0) = Ret true (demo_sem_at 0) /\
  osal_mutex_lock 1000 demo_sem 0 Signalled (demo_sem_at 0) = Ret true (demo_sem_at 0).
Proof.
  assert (Hl : k_lock (demo_sem_at 0) = false) by reflexivity.
  assert (Hs : k_sems (demo_sem_at 0) !! hdl_sem demo_sem = Some 0) by reflexivity.
  split; [exact Hl|]. split; [exact Hs|].
  exact (wait_with_zero_timeout_polls 1000 demo_sem Signalled (demo_sem_at 0) 0 Hl Hs).
Defined.

Lemma finite_timeout_never_blocks_witness :
  0 < 1000 <= 1000 /\
  0 <= 10 < 2 ^ 32 - 1 /\
  osal_semaphore_wait 1000 demo_sem 10 Quiet (demo_sem_at 0) <> Blocks /\
  osal_mutex_lock 1000 demo_sem 10 Quiet (demo_sem_at 0) <> Blocks.
Proof.
  assert (Hf : 0 < 1000 <= 1000) by lia.
  assert (Hm : 0 <= 10 < 2 ^ 32 - 1) by lia.
  split; [exact Hf|]. split; [exact Hm|].
  exact (finite_timeout_never_blocks 1000 demo_sem 10 Quiet (demo_sem_at 0) Hf Hm).
Defined.

Lemma mutex_excludes_second_holder_witness :
  k_lock (demo_sem_at 1) = false /\
  k_sems (demo_sem_at 1) !! hdl_sem demo_sem = Some 1 /\
  exists k1,
    osal_mutex_lock 1000 demo_sem 10 Quiet (demo_sem_at 1) = Ret false k1 /\
    k_sems k1 !! hdl_sem demo_sem = Some 0 /\
    osal_mutex_lock 1000 demo_sem 0 Quiet k1 = Ret true k1 /\
    osal_mutex_lock 1000 demo_sem OSAL_TIMEOUT_WAIT_FOREVER Quiet k1 = Blocks /\
    osal_mutex_unlock demo_sem k1 = Ret false (demo_sem_at 1).
Proof.
  assert (Hl : k_lock (demo_sem_at 1) = false) by reflexivity.
  assert (Hs : k_sems (demo_sem_at 1) !! hdl_sem demo_sem = Some 1) by reflexivity.
  split; [exact Hl|]. split; [exact Hs|].
  exact (mutex_excludes_second_holder 1000 demo_sem 10 Quiet Quiet (demo_sem_at 1) Hl Hs).
Defined.

Lemma mutex_unlock_is_not_capped_witness :
  k_lock (demo_sem_at 1) = false /\
  k_sems (demo_sem_at 1) !! hdl_sem demo_sem = Some 1 /\
  exists k1 k2 k3,
    osal_mutex_unlock demo_sem (demo_sem_at 1) = Ret false k1 /\
    k_sems k1 !! hdl_sem demo_sem = Some 2 /\
    osal_mutex_lock 1000 demo_sem 0 Quiet k1 = Ret false k2 /\
    osal_mutex_lock 1000 demo_sem 0 Quiet k2 = Ret false k3 /\
    k_sems k3 !! hdl_sem demo_sem = Some 0.
Proof.
  assert (Hl : k_lock (demo_sem_at 1) = false) by reflexivity.
  assert (Hs : k_sems (demo_sem_at 1) !! hdl_sem demo_sem = Some 1) by reflexivity.
  split; [exact Hl|]. split; [exact Hs|].
  exact (mutex_unlock_is_not_capped 1000 demo_sem 0 Quiet 0 Quiet (demo_sem_at 1) Hl Hs).
Defined.

Lemma receive_outcomes_witness :
  k_lock demo_reset = false /\
  k_fifos demo_reset !! q_fifo demo_queue = Some demo_reset_fifo /\
  osal_queue_receive demo_queue 512 768 demo_reset = Ret true demo_reset.
Proof.
  assert (Hl : k_lock demo_reset = false) by reflexivity.
  assert (Hf : k_fifos demo_reset !! q_fifo demo_queue = Some demo_reset_fifo)
    by reflexivity.
  split; [exact Hl|]. split; [exact Hf|].
  exact (receive_outcomes demo_queue 512 768 demo_reset demo_reset_fifo Hl Hf).
Defined.

Lemma thread_send_failed_post_keeps_slot_witness :
  k_lock demo_reset = false /\
  k_fifos demo_reset !! q_fifo demo_queue = Some demo_reset_fifo /\
  pool_free demo_reset_fifo = 4100 :: [4098; 4096] /\
  4100 <> NULL /\
  mbx_reset demo_reset_fifo = true /\
  exists k',
    osal_queue_send demo_queue 256 false demo_reset = Ret true k' /\
    k' = taken_state (q_fifo demo_queue) demo_reset_fifo 4100 [4098; 4096] 256
           (q_obj_sz demo_queue) demo_reset /\
    free_slots demo_queue k' = Some [4098; 4096] /\
    ready_objects demo_queue k' = Some (mbx_msgs demo_reset_fifo).
Proof.
  assert (Hl : k_lock demo_reset = false) by reflexivity.
  assert (Hf : k_fifos demo_reset !! q_fifo demo_queue = Some demo_reset_fifo)
    by reflexivity.
  assert (Hfree : pool_free demo_reset_fifo = 4100 :: [4098; 4096]) by reflexivity.
  assert (Hp : 4100 <> NULL) by discriminate.
  assert (Hr : mbx_reset demo_reset_fifo = true) by reflexivity.
  split; [exact Hl|]. split; [exact Hf|]. split; [exact Hfree|]. split; [exact Hp|].
  split; [exact Hr|].
  exact (thread_send_failed_post_keeps_slot demo_queue 256 demo_reset demo_reset_fifo
           4100 [4098; 4096] Hl Hf Hfree Hp Hr).
Defined.

Lemma isr_send_reports_success_with_slot_witness :
  k_lock demo_reset = false /\
  k_fifos demo_reset !! q_fifo demo_queue = Some demo_reset_fifo /\
  pool_free demo_reset_fifo = 4100 :: [4098; 4096] /\
  4100 <> NULL /\
  osal_queue_send demo_queue 256 true demo_reset =
    Ret false (taken_state (q_fifo demo_queue) demo_reset_fifo 4100 [4098; 4096] 256
                 (q_obj_sz demo_queue) demo_reset).
Proof.
  assert (Hl : k_lock demo_reset = false) by reflexivity.
  assert (Hf : k_fifos demo_reset !! q_fifo demo_queue = Some demo_reset_fifo)
    by reflexivity.
  assert (Hfree : pool_free demo_reset_fifo = 4100 :: [4098; 4096]) by reflexivity.
  assert (Hp : 4100 <> NULL) by discriminate.
  split; [exact Hl|]. split; [exact Hf|]. split; [exact Hfree|]. split; [exact Hp|].
  exact (isr_send_reports_success_with_slot demo_queue 256 demo_reset demo_reset_fifo
           4100 [4098; 4096] Hl Hf Hfree Hp).
Defined.

Lemma created_queue_accepts_depth_sends_witness :
  k_lock boot = false /\
  0 <= qdef_depth demo_qdef /\
  0 < qdef_objbuf demo_qdef /\
  0 <= qdef_obj_sz demo_qdef /\
  (length four_sends <= Z.to_nat (qdef_depth demo_qdef))%nat /\
  exists qhdl k1 k2,
    osal_queue_create demo_qdef (mk_queue 2 0) boot = Ret qhdl k1 /\
    sends qhdl four_sends k1 = Some k2 /\
    ready_objects qhdl k2 = Some [4102; 4100; 4098; 4096] /\
    free_slots qhdl k2 = Some [] /\
    (length four_sends = Z.to_nat (qdef_depth demo_qdef) ->
     forall data, osal_queue_send qhdl data false k2 = Blocks).
Proof.
  assert (Hl : k_lock boot = false) by reflexivity.
  assert (Hd : 0 <= qdef_depth demo_qdef) by (simpl; lia).
  assert (Hbuf : 0 < qdef_objbuf demo_qdef) by (simpl; lia).
  assert (Hsz : 0 <= qdef_obj_sz demo_qdef) by (simpl; lia).
  assert (Hlen : (length four_sends <= Z.to_nat (qdef_depth demo_qdef))%nat)
    by (vm_compute; lia).
  split; [exact Hl|]. split; [exact Hd|]. split; [exact Hbuf|]. split; [exact Hsz|].
  split; [exact Hlen|].
  exact (created_queue_accepts_depth_sends demo_qdef (mk_queue 2 0) boot four_sends
           Hl Hd Hbuf Hsz Hlen).
Defined.

Lemma send_keeps_ready_objects_witness :
  k_fifos demo_reset !! q_fifo demo_queue = Some demo_reset_fifo /\
  osal_queue_send demo_queue 256 true demo_reset =
    Ret false (taken_state (q_fifo demo_queue) demo_reset_fifo 4100 [4098; 4096] 256
                 (q_obj_sz demo_queue) demo_reset) /\
  exists f',
    k_fifos (taken_state (q_fifo demo_queue) demo_reset_fifo 4100 [4098; 4096] 256
               (q_obj_sz demo_queue) demo_reset) !! q_fifo demo_queue = Some f' /\
    mbx_msgs demo_reset_fifo `prefix_of` mbx_msgs f' /\
    pool_free f' `suffix_of` pool_free demo_reset_fifo.
Proof.
  assert (Hf : k_fifos demo_reset !! q_fifo demo_queue = Some demo_reset_fifo)
    by reflexivity.
  assert (Hs : osal_queue_send demo_queue 256 true demo_reset =
               Ret false (taken_state (q_fifo demo_queue) demo_reset_fifo 4100
                            [4098; 4096] 256 (q_obj_sz demo_queue) demo_reset))
    by reflexivity.
  split; [exact Hf|]. split; [exact Hs|].
  destruct (send_keeps_ready_objects demo_queue 256 true demo_reset demo_reset_fifo
              false _ Hf Hs) as (_ & _ & f' & Hf' & Hpre & _ & Hsuf & _).
  exists f'. split; [exact Hf'|]. split; [exact Hpre|exact Hsuf].
Defined.


Lemma send_receive_restores_queue_witness :
  k_lock demo_fresh = false /\
  k_fifos demo_fresh !! q_fifo demo_queue = Some demo_fresh_fifo /\
  pool_free demo_fresh_fifo = 4102 :: [4100; 4098; 4096] /\
  mbx_msgs demo_fresh_fifo = [] /\
  mbx_reset demo_fresh_fifo = false /\
  0 < mbx_size demo_fresh_fifo /\
  0 < 4102 < 2 ^ 32 /\
  disjoint 768 sizeof_ptr 512 (Z.of_nat (Z.to_nat (q_obj_sz demo_queue))) /\
  exists k1 k2,
    osal_queue_send demo_queue 256 true demo_fresh = Ret false k1 /\
    osal_queue_receive demo_queue 512 768 k1 = Ret false k2 /\
    k_fifos k2 = k_fifos demo_fresh /\ k_sems k2 = k_sems demo_fresh /\ k_lock k2 = false.
Proof.
  assert (Hl : k_lock demo_fresh = false) by reflexivity.
  assert (Hf : k_fifos demo_fresh !! q_fifo demo_queue = Some demo_fresh_fifo)
    by reflexivity.
  assert (Hfree : pool_free demo_fresh_fifo = 4102 :: [4100; 4098; 4096]) by reflexivity.
  assert (Hm : mbx_msgs demo_fresh_fifo = []) by reflexivity.
  assert (Hr : mbx_reset demo_fresh_fifo = false) by reflexivity.
  assert (Hsz : 0 < mbx_size demo_fresh_fifo) by (simpl; lia).
  assert (Hp : 0 < 4102 < 2 ^ 32) by lia.
  assert (Hdis : disjoint 768 sizeof_ptr 512 (Z.of_nat (Z.to_nat (q_obj_sz demo_queue))))
    by (unfold disjoint, sizeof_ptr; simpl; lia).
  split; [exact Hl|]. split; [exact Hf|]. split; [exact Hfree|]. split; [exact Hm|].
  split; [exact Hr|]. split; [exact Hsz|]. split; [exact Hp|]. split; [exact Hdis|].
  exact (send_receive_restores_queue demo_queue 256 true 512 768 demo_fresh demo_fresh_fifo
           4102 [4100; 4098; 4096] Hl Hf Hfree Hm Hr Hsz Hp Hdis).
Defined.

Lemma osal_queue_empty_answers_full_witness :
  k_lock demo_fresh = false /\
  k_fifos demo_fresh !! q_fifo demo_queue = Some demo_fresh_fifo /\
  Z.of_nat (length (mbx_msgs demo_fresh_fifo)) <= mbx_size demo_fresh_fifo < 2 ^ 16 /\
  osal_queue_empty demo_queue demo_fresh = Ret false demo_fresh.
Proof.
  assert (Hl : k_lock demo_fresh = false) by reflexivity.
  assert (Hf : k_fifos demo_fresh !! q_fifo demo_queue = Some demo_fresh_fifo)
    by reflexivity.
  assert (Hcap : Z.of_nat (length (mbx_msgs demo_fresh_fifo))
                 <= mbx_size demo_fresh_fifo < 2 ^ 16) by (simpl; lia).
  split; [exact Hl|]. split; [exact Hf|]. split; [exact Hcap|].
  exact (osal_queue_empty_answers_full demo_queue demo_fresh demo_fresh_fifo Hl Hf Hcap).
Defined.

Lemma oversize_send_overwrites_queued_object_witness :
  k_lock demo_fresh = false /\
  k_fifos demo_fresh !! q_fifo (mk_queue 4 12288) = Some demo_fresh_fifo /\
  pool_free demo_fresh_fifo = 4102 :: 4100 :: [4098; 4096] /\
  mbx_msgs demo_fresh_fifo = [] /\
  mbx_reset demo_fresh_fifo = false /\
  1 < mbx_size demo_fresh_fifo /\
  0 < 4100 /\
  4102 = 4100 + Z.of_nat 2 /\
  (2 < Z.to_nat (q_obj_sz (mk_queue 4 12288)))%nat /\
  exists k1 k2,
    osal_queue_send (mk_queue 4 12288) 256 false demo_fresh = Ret false k1 /\
    osal_queue_send (mk_queue 4 12288) 260 true k1 = Ret false k2 /\
    ready_objects (mk_queue 4 12288) k2 = Some [4102; 4100] /\
    read_bytes (k_mem k1) 4102 4 = read_bytes (k_mem demo_fresh) 256 4 /\
    read_bytes (k_mem k2) 4102 2 = read_bytes (k_mem k1) 262 2.
Proof.
  assert (Hl : k_lock demo_fresh = false) by reflexivity.
  assert (Hf : k_fifos demo_fresh !! q_fifo (mk_queue 4 12288) = Some demo_fresh_fifo)
    by reflexivity.
  assert (Hfree : pool_free demo_fresh_fifo = 4102 :: 4100 :: [4098; 4096]) by reflexivity.
  assert (Hm : mbx_msgs demo_fresh_fifo = []) by reflexivity.
  assert (Hr : mbx_reset demo_fresh_fifo = false) by reflexivity.
  assert (Hsz : 1 < mbx_size demo_fresh_fifo) by (simpl; lia).
  assert (HpB : 0 < 4100) by lia.
  assert (HpA : 4102 = 4100 + Z.of_nat 2) by reflexivity.
  assert (Hs : (2 < Z.to_nat (q_obj_sz (mk_queue 4 12288)))%nat) by (vm_compute; lia).
  split; [exact Hl|]. split; [exact Hf|]. split; [exact Hfree|]. split; [exact Hm|].
  split; [exact Hr|]. split; [exact Hsz|]. split; [exact HpB|]. split; [exact HpA|].
  split; [exact Hs|].
  exact (oversize_send_overwrites_queued_object (mk_queue 4 12288) 256 260 false true
           demo_fresh demo_fresh_fifo 4102 4100 [4098; 4096] 2
           Hl Hf Hfree Hm Hr Hsz HpB HpA Hs).
Defined.
